(** * VinylRigVote: encrypted ballot aggregation and decryption authorization

    A shallow embedding of [contracts/VinylRigVote.sol].  Contract storage is
    an explicit [storage] record threaded through every external function; a
    [require] that fails, a checked-arithmetic panic or a rejected input proof
    aborts the call with an [error] and the caller keeps the previous state
    (EVM revert).  Solidity mappings are finite maps read with the type's
    default value; unsigned integers are [N] with the checked-arithmetic
    overflow of Solidity 0.8 written out. *)

From stdpp Require Import base numbers option list gmap strings pretty.
From Stdlib Require Import NArith Lia Permutation.

Local Open Scope N_scope.

(** ** Errors and the result monad *)

(** A reverted call: [require(c, reason)] failing, a Solidity panic
    (0x11 is arithmetic overflow), or the FHE input verifier rejecting a
    ciphertext/proof pair. *)
Inductive error : Type :=
| Revert (reason : string)
| Panic (code : N)
| InputRejected.

Inductive result (A : Type) : Type :=
| Ok (a : A)
| Err (e : error).
Arguments Ok {A} a.
Arguments Err {A} e.

Global Instance result_ret : MRet result := fun A a => Ok a.

Global Instance result_bind : MBind result := fun A B k m =>
  match m with
  | Ok a => k a
  | Err e => Err e
  end.

Definition require (c : bool) (reason : string) : result unit :=
  if c then Ok tt else Err (Revert reason).

Definition is_ok {A : Type} (r : result A) : bool :=
  match r with Ok _ => true | Err _ => false end.

(** The error kinds of the specification, as the revert reasons of the
    contract. *)
Definition SessionNotFound : error := Revert "Session does not exist".
Definition SessionNotActive : error := Revert "Session not active".
Definition DeadlinePassed : error := Revert "Voting deadline passed".
Definition InvalidSetupIndex : error := Revert "Invalid setup index".
Definition InvalidTagIndex : error := Revert "Invalid tag index".
Definition DuplicateVote : error := Revert "Already voted for this setup".
Definition NotOrganizer : error := Revert "Not session organizer".
Definition NotClosed : error := Revert "Session not closed".
Definition MustBeClosedFirst : error := Revert "Session must be closed first".
Definition AlreadyRequested : error := Revert "Decryption already requested".
Definition NotRevealed : error := Revert "Equipment not yet revealed".
Definition Forbidden : error := Revert "Can only view own votes".
Definition NotFound : error := Revert "No vote found".
Definition InvalidDeadline : error := Revert "Deadline must be in future".
Definition InvalidSetupCount : error := Revert "Number of setups must be 2-10".
Definition NameCountMismatch : error := Revert "Equipment names length mismatch".
Definition Overflow : error := Panic 17.

(** ** Machine integers *)

Definition address : Type := N.
Definition MAX_UINT256 : N := 2 ^ 256 - 1.
Definition MAX_UINT16 : N := 2 ^ 16 - 1.

(** [x++] on a [w]-bit unsigned integer under checked arithmetic. *)
Definition checked_inc (max : N) (x : N) : result N :=
  if x <? max then Ok (x + 1) else Err Overflow.

(** ** Fixed-size arrays of length 5 ([euint8[5]], [externalEuint8[5]]) *)

Record Array5 (A : Type) : Type := mkArray5 {
  a0 : A; a1 : A; a2 : A; a3 : A; a4 : A
}.
Arguments mkArray5 {A} _ _ _ _ _.
Arguments a0 {A} _.
Arguments a1 {A} _.
Arguments a2 {A} _.
Arguments a3 {A} _.
Arguments a4 {A} _.

Definition get5 {A : Type} (d : A) (arr : Array5 A) (i : N) : A :=
  match i with
  | 0 => a0 arr
  | 1 => a1 arr
  | 2 => a2 arr
  | 3 => a3 arr
  | 4 => a4 arr
  | _ => d
  end.

Definition to_list5 {A : Type} (arr : Array5 A) : list A :=
  [a0 arr; a1 arr; a2 arr; a3 arr; a4 arr].

Definition const5 {A : Type} (x : A) : Array5 A := mkArray5 x x x x x.

Definition zip5 {A B C : Type} (f : A -> B -> C)
    (x : Array5 A) (y : Array5 B) : Array5 C :=
  mkArray5 (f (a0 x) (a0 y)) (f (a1 x) (a1 y)) (f (a2 x) (a2 y))
           (f (a3 x) (a3 y)) (f (a4 x) (a4 y)).

(** [for (i = 0; i < 5; i++) out[i] = f(in[i])] where [f] may revert. *)
Definition mapM5 {A B : Type} (f : A -> result B) (x : Array5 A)
    : result (Array5 B) :=
  b0 ← f (a0 x); b1 ← f (a1 x); b2 ← f (a2 x);
  b3 ← f (a3 x); b4 ← f (a4 x);
  Ok (mkArray5 b0 b1 b2 b3 b4).

(** ** The ciphertext capability *)

(** Modelled from the spec: the homomorphic backend ([FHE.sol] of
    [@fhevm/solidity]) is imported by the contract and is not part of the
    sources.  Section 6 of the specification gives its contract: admission of
    an external ciphertext with a proof yields a handle or fails; add yields a
    new handle for the encrypted sum; a capability grant authorizes a
    principal on a handle; decryption yields the cleartext.  Handles are
    opaque references, so they are modelled as the free terms over attested
    inputs and [add]: [HNone] is the zero handle of an unwritten storage slot,
    [HInput u n v] is the ciphertext number [n] that user [u] encrypted for
    this contract (with cleartext [v]), and [HAdd l r] is the handle derived
    by adding [l] and [r]. *)
Inductive handle : Type :=
| HNone
| HInput (user : address) (nonce : N) (clear : N)
| HAdd (l r : handle).

Global Instance handle_eq_dec : EqDecision handle.
Proof. solve_decision. Defined.

(** A principal of the access-control list: the contract itself
    ([address(this)], the target of [FHE.allowThis]) or an account. *)
Inductive principal : Type :=
| Contract
| User (a : address).

Global Instance principal_eq_dec : EqDecision principal.
Proof. solve_decision. Defined.

(** Modelled from the spec: decryption of a [w]-bit ciphertext.  Encrypted
    unsigned integers wrap around at [2^w]; the zero handle has no
    cleartext. *)
Fixpoint decrypt (w : N) (h : handle) : option N :=
  match h with
  | HNone => None
  | HInput _ _ v => Some (v mod 2 ^ w)
  | HAdd l r =>
      match decrypt w l, decrypt w r with
      | Some x, Some y => Some ((x + y) mod 2 ^ w)
      | _, _ => None
      end
  end.

(** Modelled from the spec: [FHE.add], the homomorphic sum of two handles. *)
Definition FHE_add (l r : handle) : handle := HAdd l r.

(** Modelled from the spec: an input proof lists the external handles it
    attests. *)
Definition inputProof : Type := list handle.

(** Modelled from the spec: [FHE.fromExternal], ciphertext admission.  The
    external handle is accepted when it is an input ciphertext produced by
    the caller and covered by the proof; otherwise the call reverts. *)
Definition FHE_fromExternal (sender : address) (ext : handle)
    (proof : inputProof) : result handle :=
  match ext with
  | HInput u _ _ =>
      if bool_decide (u = sender) && bool_decide (ext ∈ proof)
      then Ok ext else Err InputRejected
  | _ => Err InputRejected
  end.

(** The persistent access-control list: the grants made so far. *)
Definition ACL : Type := list (handle * principal).

(** Modelled from the spec: [FHE.allow] / [FHE.allowThis], a capability
    grant. *)
Definition FHE_allow (h : handle) (p : principal) (acl : ACL) : ACL :=
  (h, p) :: acl.

Definition isAllowed (h : handle) (p : principal) (acl : ACL) : bool :=
  bool_decide ((h, p) ∈ acl).

(** ** Contract storage *)

Inductive SessionState : Type :=
| Draft
| Active
| Closed
| Revealed.

Global Instance SessionState_eq_dec : EqDecision SessionState.
Proof. solve_decision. Defined.

(** [uint8(state)]. *)
Definition state_code (s : SessionState) : N :=
  match s with
  | Draft => 0
  | Active => 1
  | Closed => 2
  | Revealed => 3
  end.

Record Vote : Type := mkVote {
  rating : handle;
  tags : Array5 handle;
  submitted : bool
}.

Record Session : Type := mkSession {
  organizer : address;
  title : string;
  description : string;
  deadline : N;
  state : SessionState;
  numSetups : N;
  equipmentNames : list string;
  trackList : string
}.

(** The value a mapping returns for a key that was never written. *)
Definition default_handles : Array5 handle := const5 HNone.
Definition default_vote : Vote := mkVote HNone default_handles false.
Definition default_session : Session :=
  mkSession 0 "" "" 0 Draft 0 [] "".

(** The state variables of the contract (the two [_decrypted...] mappings
    are never read or written and are left out), together with the
    access-control list held by the cryptosystem. *)
Record storage : Type := mkStorage {
  _sessionCounter : N;
  _sessions : gmap N Session;
  _votes : gmap (N * N * address) Vote;
  _sessionTotals : gmap (N * N) handle;
  _tagTotals : gmap (N * N) (Array5 handle);
  _voteCounts : gmap (N * N) N;
  _decryptionRequested : gmap N bool;
  acl : ACL
}.

(** The storage of a freshly deployed contract. *)
Definition init : storage := mkStorage 0 ∅ ∅ ∅ ∅ ∅ ∅ [].

(** Mapping reads. *)
Definition session_at (σ : storage) (sessionId : N) : Session :=
  default default_session (_sessions σ !! sessionId).
Definition vote_at (σ : storage) (sessionId setupIndex : N) (voter : address)
    : Vote :=
  default default_vote (_votes σ !! (sessionId, setupIndex, voter)).
Definition total_at (σ : storage) (sessionId setupIndex : N) : handle :=
  default HNone (_sessionTotals σ !! (sessionId, setupIndex)).
Definition tagTotals_at (σ : storage) (sessionId setupIndex : N)
    : Array5 handle :=
  default default_handles (_tagTotals σ !! (sessionId, setupIndex)).
Definition voteCount_at (σ : storage) (sessionId setupIndex : N) : N :=
  default 0 (_voteCounts σ !! (sessionId, setupIndex)).
Definition requested_at (σ : storage) (sessionId : N) : bool :=
  default false (_decryptionRequested σ !! sessionId).

(** Storage writes. *)
Definition set_sessionCounter (n : N) (σ : storage) : storage :=
  mkStorage n (_sessions σ) (_votes σ) (_sessionTotals σ) (_tagTotals σ)
    (_voteCounts σ) (_decryptionRequested σ) (acl σ).
Definition set_session (sessionId : N) (s : Session) (σ : storage) : storage :=
  mkStorage (_sessionCounter σ) (<[sessionId := s]> (_sessions σ)) (_votes σ)
    (_sessionTotals σ) (_tagTotals σ) (_voteCounts σ)
    (_decryptionRequested σ) (acl σ).
Definition set_vote (sessionId setupIndex : N) (voter : address) (v : Vote)
    (σ : storage) : storage :=
  mkStorage (_sessionCounter σ) (_sessions σ)
    (<[(sessionId, setupIndex, voter) := v]> (_votes σ))
    (_sessionTotals σ) (_tagTotals σ) (_voteCounts σ)
    (_decryptionRequested σ) (acl σ).
Definition set_totals (sessionId setupIndex : N) (r : handle)
    (t : Array5 handle) (σ : storage) : storage :=
  mkStorage (_sessionCounter σ) (_sessions σ) (_votes σ)
    (<[(sessionId, setupIndex) := r]> (_sessionTotals σ))
    (<[(sessionId, setupIndex) := t]> (_tagTotals σ))
    (_voteCounts σ) (_decryptionRequested σ) (acl σ).
Definition set_voteCount (sessionId setupIndex : N) (n : N) (σ : storage)
    : storage :=
  mkStorage (_sessionCounter σ) (_sessions σ) (_votes σ) (_sessionTotals σ)
    (_tagTotals σ) (<[(sessionId, setupIndex) := n]> (_voteCounts σ))
    (_decryptionRequested σ) (acl σ).
Definition set_requested (sessionId : N) (b : bool) (σ : storage) : storage :=
  mkStorage (_sessionCounter σ) (_sessions σ) (_votes σ) (_sessionTotals σ)
    (_tagTotals σ) (_voteCounts σ)
    (<[sessionId := b]> (_decryptionRequested σ)) (acl σ).
Definition set_acl (l : ACL) (σ : storage) : storage :=
  mkStorage (_sessionCounter σ) (_sessions σ) (_votes σ) (_sessionTotals σ)
    (_tagTotals σ) (_voteCounts σ) (_decryptionRequested σ) l.

Definition with_state (st : SessionState) (s : Session) : Session :=
  mkSession (organizer s) (title s) (description s) (deadline s) st
    (numSetups s) (equipmentNames s) (trackList s).

(** [msg.sender] and [block.timestamp] of a call. *)
Record callctx : Type := mkCtx {
  msg_sender : address;
  block_timestamp : N
}.

(** ** Modifiers *)

Definition onlyOrganizer (c : callctx) (sessionId : N) (σ : storage)
    : result unit :=
  require (bool_decide (organizer (session_at σ sessionId) = msg_sender c))
    "Not session organizer".

Definition onlyActiveSession (c : callctx) (sessionId : N) (σ : storage)
    : result unit :=
  require (bool_decide (state (session_at σ sessionId) = Active))
    "Session not active";;
  require (block_timestamp c <=? deadline (session_at σ sessionId))
    "Voting deadline passed".

Definition onlyClosedSession (sessionId : N) (σ : storage) : result unit :=
  require (bool_decide (state (session_at σ sessionId) = Closed))
    "Session not closed".

Definition sessionExists (sessionId : N) (σ : storage) : result unit :=
  require (negb (bool_decide (organizer (session_at σ sessionId) = 0)))
    "Session does not exist".

(** ** State-changing functions *)

Definition createSession (c : callctx) (title description : string)
    (deadline numSetups : N) (equipmentNames : list string)
    (trackList : string) (σ : storage) : result (N * storage) :=
  require (block_timestamp c <? deadline) "Deadline must be in future";;
  require ((2 <=? numSetups) && (numSetups <=? 10))
    "Number of setups must be 2-10";;
  require (N.of_nat (length equipmentNames) =? numSetups)
    "Equipment names length mismatch";;
  let sessionId := _sessionCounter σ in
  next ← checked_inc MAX_UINT256 (_sessionCounter σ);
  Ok (sessionId,
      set_session sessionId
        (mkSession (msg_sender c) title description deadline Active
           numSetups equipmentNames trackList)
        (set_sessionCounter next σ)).

(** [FHE.allow(h, who); FHE.allowThis(h);] *)
Definition allow_and_this (who : address) (l : ACL) (h : handle) : ACL :=
  FHE_allow h Contract (FHE_allow h (User who) l).

(** [FHE.allowThis(h);] *)
Definition allow_this (l : ACL) (h : handle) : ACL := FHE_allow h Contract l.

(** The block "Aggregate to session totals": first-value assignment on the
    first vote of a setup, homomorphic addition afterwards. *)
Definition aggregate_vote (sessionId setupIndex : N)
    (encryptedRating : handle) (encryptedTags : Array5 handle)
    (σ : storage) : storage :=
  if voteCount_at σ sessionId setupIndex =? 0
  then set_totals sessionId setupIndex encryptedRating encryptedTags σ
  else set_totals sessionId setupIndex
         (FHE_add (total_at σ sessionId setupIndex) encryptedRating)
         (zip5 FHE_add (tagTotals_at σ sessionId setupIndex) encryptedTags)
         σ.

(** The blocks "Allow voter and contract to access their vote" and "Allow
    contract to access aggregated totals". *)
Definition grant_vote (who : address) (sessionId setupIndex : N)
    (encryptedRating : handle) (encryptedTags : Array5 handle)
    (σ : storage) : storage :=
  let l1 := allow_and_this who (acl σ) encryptedRating in
  let l2 := foldl (allow_and_this who) l1 (to_list5 encryptedTags) in
  let l3 := allow_this l2 (total_at σ sessionId setupIndex) in
  let l4 :=
    foldl allow_this l3 (to_list5 (tagTotals_at σ sessionId setupIndex)) in
  set_acl l4 σ.

Definition submitVote (c : callctx) (sessionId setupIndex : N)
    (inputRating : handle) (inputTags : Array5 handle)
    (proof : inputProof) (σ : storage) : result storage :=
  sessionExists sessionId σ;;
  onlyActiveSession c sessionId σ;;
  require (setupIndex <? numSetups (session_at σ sessionId))
    "Invalid setup index";;
  require (negb (submitted (vote_at σ sessionId setupIndex (msg_sender c))))
    "Already voted for this setup";;
  encryptedRating ← FHE_fromExternal (msg_sender c) inputRating proof;
  encryptedTags ←
    mapM5 (fun t => FHE_fromExternal (msg_sender c) t proof) inputTags;
  let σ1 :=
    set_vote sessionId setupIndex (msg_sender c)
      (mkVote encryptedRating encryptedTags true) σ in
  let σ2 :=
    aggregate_vote sessionId setupIndex encryptedRating encryptedTags σ1 in
  count ← checked_inc MAX_UINT16 (voteCount_at σ2 sessionId setupIndex);
  let σ3 := set_voteCount sessionId setupIndex count σ2 in
  Ok (grant_vote (msg_sender c) sessionId setupIndex
        encryptedRating encryptedTags σ3).

Definition closeSession (c : callctx) (sessionId : N) (σ : storage)
    : result storage :=
  sessionExists sessionId σ;;
  onlyOrganizer c sessionId σ;;
  require (bool_decide (state (session_at σ sessionId) = Active))
    "Session not active";;
  Ok (set_session sessionId (with_state Closed (session_at σ sessionId)) σ).

Definition computeRankings (c : callctx) (sessionId : N) (σ : storage)
    : result storage :=
  sessionExists sessionId σ;;
  onlyClosedSession sessionId σ;;
  Ok σ.

(** The body of the loop over the setups in [requestOrganizerDecryption]. *)
Definition grant_setup (who : address) (sessionId : N) (σ : storage)
    (l : ACL) (i : N) : ACL :=
  if 0 <? voteCount_at σ sessionId i
  then foldl (allow_and_this who)
         (allow_and_this who l (total_at σ sessionId i))
         (to_list5 (tagTotals_at σ sessionId i))
  else l.

(** The setup indices [0 .. n-1] a loop [for (uint8 i = 0; i < n; i++)]
    visits. *)
Definition setup_indices (n : N) : list N :=
  map N.of_nat (seq 0 (N.to_nat n)).

Definition requestOrganizerDecryption (c : callctx) (sessionId : N)
    (σ : storage) : result storage :=
  sessionExists sessionId σ;;
  onlyOrganizer c sessionId σ;;
  onlyClosedSession sessionId σ;;
  require (negb (requested_at σ sessionId)) "Decryption already requested";;
  let l :=
    foldl (grant_setup (msg_sender c) sessionId σ) (acl σ)
      (setup_indices (numSetups (session_at σ sessionId))) in
  Ok (set_requested sessionId true (set_acl l σ)).

Definition revealEquipment (c : callctx) (sessionId : N) (σ : storage)
    : result storage :=
  sessionExists sessionId σ;;
  onlyOrganizer c sessionId σ;;
  require (bool_decide (state (session_at σ sessionId) = Closed))
    "Session must be closed first";;
  Ok (set_session sessionId (with_state Revealed (session_at σ sessionId)) σ).

(** ** View functions *)

Definition getUserVote (c : callctx) (sessionId setupIndex : N)
    (userAddress : address) (σ : storage)
    : result (handle * Array5 handle) :=
  sessionExists sessionId σ;;
  require (bool_decide (msg_sender c = userAddress))
    "Can only view own votes";;
  require (submitted (vote_at σ sessionId setupIndex userAddress))
    "No vote found";;
  Ok (rating (vote_at σ sessionId setupIndex userAddress),
      tags (vote_at σ sessionId setupIndex userAddress)).

Definition getSession (c : callctx) (sessionId : N) (σ : storage)
    : result (address * string * string * N * SessionState * N * string) :=
  sessionExists sessionId σ;;
  let session := session_at σ sessionId in
  Ok (organizer session, title session, description session,
      deadline session, state session, numSetups session, trackList session).

Definition getEquipmentNames (c : callctx) (sessionId : N) (σ : storage)
    : result (list string) :=
  sessionExists sessionId σ;;
  require (bool_decide (state (session_at σ sessionId) = Revealed))
    "Equipment not yet revealed";;
  Ok (equipmentNames (session_at σ sessionId)).

Definition getVoteCount (c : callctx) (sessionId setupIndex : N)
    (σ : storage) : result N :=
  sessionExists sessionId σ;;
  Ok (voteCount_at σ sessionId setupIndex).

Definition getSessionCount (c : callctx) (σ : storage) : result N :=
  Ok (_sessionCounter σ).

Definition hasVoted (c : callctx) (sessionId setupIndex : N)
    (userAddress : address) (σ : storage) : result bool :=
  Ok (submitted (vote_at σ sessionId setupIndex userAddress)).

Definition isOrganizer (c : callctx) (sessionId : N) (addr : address)
    (σ : storage) : result bool :=
  sessionExists sessionId σ;;
  Ok (bool_decide (organizer (session_at σ sessionId) = addr)).

Definition getSessionState (c : callctx) (sessionId : N) (σ : storage)
    : result N :=
  sessionExists sessionId σ;;
  Ok (state_code (state (session_at σ sessionId))).

Definition isDecryptionRequested (c : callctx) (sessionId : N)
    (σ : storage) : result bool :=
  sessionExists sessionId σ;;
  Ok (requested_at σ sessionId).

Definition getSessionTotal (c : callctx) (sessionId setupIndex : N)
    (σ : storage) : result handle :=
  sessionExists sessionId σ;;
  require (setupIndex <? numSetups (session_at σ sessionId))
    "Invalid setup index";;
  Ok (total_at σ sessionId setupIndex).

Definition getTagTotal (c : callctx) (sessionId setupIndex tagIndex : N)
    (σ : storage) : result handle :=
  sessionExists sessionId σ;;
  require (setupIndex <? numSetups (session_at σ sessionId))
    "Invalid setup index";;
  require (tagIndex <? 5) "Invalid tag index";;
  Ok (get5 HNone (tagTotals_at σ sessionId setupIndex) tagIndex).

(** ** Transactions and reachable states *)

Inductive call : Type :=
| CreateSession (title description : string) (deadline numSetups : N)
    (equipmentNames : list string) (trackList : string)
| SubmitVote (sessionId setupIndex : N) (inputRating : handle)
    (inputTags : Array5 handle) (proof : inputProof)
| CloseSession (sessionId : N)
| ComputeRankings (sessionId : N)
| RequestOrganizerDecryption (sessionId : N)
| RevealEquipment (sessionId : N).

Record tx : Type := mkTx {
  tx_ctx : callctx;
  tx_call : call
}.

Definition run (t : tx) (σ : storage) : result storage :=
  match tx_call t with
  | CreateSession ti de dl n names tl =>
      r ← createSession (tx_ctx t) ti de dl n names tl σ; Ok (snd r)
  | SubmitVote s i r ts p => submitVote (tx_ctx t) s i r ts p σ
  | CloseSession s => closeSession (tx_ctx t) s σ
  | ComputeRankings s => computeRankings (tx_ctx t) s σ
  | RequestOrganizerDecryption s => requestOrganizerDecryption (tx_ctx t) s σ
  | RevealEquipment s => revealEquipment (tx_ctx t) s σ
  end.

(** A reverted transaction leaves the storage as it was. *)
Definition step (σ : storage) (t : tx) : storage :=
  match run t σ with
  | Ok σ' => σ'
  | Err _ => σ
  end.

Definition steps (σ : storage) (ts : list tx) : storage := foldl step σ ts.

Definition reachable (σ : storage) : Prop := exists ts, σ = steps init ts.

(** ** Ballots accepted for one setup *)

Definition ballot : Type := handle * Array5 handle.

(** The ballot a transaction folds into the aggregate of setup
    [setupIndex] of session [sessionId], if it is a [submitVote] for that
    setup and succeeds. *)
Definition accepted (sessionId setupIndex : N) (σ : storage) (t : tx)
    : list ballot :=
  match tx_call t with
  | SubmitVote s i r ts p =>
      if bool_decide (s = sessionId) && bool_decide (i = setupIndex)
         && is_ok (run t σ)
      then [(r, ts)] else []
  | _ => []
  end.

Fixpoint history (sessionId setupIndex : N) (σ : storage) (ts : list tx)
    : list ballot :=
  match ts with
  | [] => []
  | t :: ts' =>
      accepted sessionId setupIndex σ t
        ++ history sessionId setupIndex (step σ t) ts'
  end.

Definition Nsum (l : list N) : N := foldr N.add 0 l.

(** The cleartexts of a list of [w]-bit ciphertexts. *)
Definition cleartexts (w : N) (hs : list handle) : list N :=
  omap (decrypt w) hs.

Definition ratings_of (bs : list ballot) : list N :=
  cleartexts 16 (map fst bs).

Definition tags_of (j : N) (bs : list ballot) : list N :=
  cleartexts 8 (map (fun b => get5 HNone (snd b) j) bs).

(** ** Shapes of handles *)

Definition is_input_of (u : address) (h : handle) : bool :=
  match h with
  | HInput u' _ _ => bool_decide (u' = u)
  | _ => false
  end.

Definition is_input (h : handle) : bool :=
  match h with HInput _ _ _ => true | _ => false end.

Definition is_sum (h : handle) : bool :=
  match h with HAdd _ _ => true | _ => false end.

Definition attested (sender : address) (proof : inputProof) (h : handle)
    : bool :=
  match h with
  | HInput u _ _ => bool_decide (u = sender) && bool_decide (h ∈ proof)
  | _ => false
  end.

Definition all5 {A : Type} (P : A -> bool) (x : Array5 A) : bool :=
  P (a0 x) && P (a1 x) && P (a2 x) && P (a3 x) && P (a4 x).

(** The six ciphertext handles of a ballot or of an aggregate. *)
Definition handles_of (r : handle) (t : Array5 handle) : list handle :=
  r :: to_list5 t.


Definition aggregate_handles (σ : storage) (sessionId setupIndex : N)
    : list handle :=
  handles_of (total_at σ sessionId setupIndex)
             (tagTotals_at σ sessionId setupIndex).

(** ** Success conditions and post-states *)

(** A session exists when its organizer is not the zero address. *)
Definition exists_session (σ : storage) (sessionId : N) : Prop :=
  organizer (session_at σ sessionId) <> 0.

(** The storage a successful [submitVote] returns. *)
Definition submit_post (sender : address) (s i : N) (r : handle)
    (ts : Array5 handle) (σ : storage) : storage :=
  let σ2 := aggregate_vote s i r ts (set_vote s i sender (mkVote r ts true) σ) in
  grant_vote sender s i r ts
    (set_voteCount s i (voteCount_at σ2 s i + 1) σ2).

(** The storage a successful [requestOrganizerDecryption] returns. *)
Definition request_post (who : address) (s : N) (σ : storage) : storage :=
  set_requested s true
    (set_acl (foldl (grant_setup who s σ) (acl σ)
                (setup_indices (numSetups (session_at σ s)))) σ).

(** ** The invariant of reachable storage *)

(** The aggregate of a setup by its vote count: unwritten (zero handles)
    before the first vote, the first ballot's own handles after it, and
    handles derived by [FHE.add] from the second vote on. *)
Definition agg_shape (n : N) (hs : list handle) : Prop :=
  (n = 0 -> hs = handles_of HNone default_handles) /\
  (n = 1 -> Forall (fun h => is_input h = true) hs) /\
  (2 <= n -> Forall (fun h => is_sum h = true) hs).

(** Where a grant [(h, p)] of the access-control list comes from: the
    contract's own use capability, a voter's capability on a ciphertext they
    produced, or the organizer's capability on an aggregate handle of a
    session whose decryption was requested. *)
Definition justified (σ : storage) (h : handle) (p : principal) : Prop :=
  p = Contract \/
  (exists u, is_input_of u h = true /\ p = User u) \/
  (exists s i, requested_at σ s = true /\
     p = User (organizer (session_at σ s)) /\
     0 < voteCount_at σ s i /\ h ∈ aggregate_handles σ s i).

Record Inv (σ : storage) : Prop := mkInv {
  inv_fresh : forall id s,
    _sessions σ !! id = Some s -> id < _sessionCounter σ;
  inv_wf : forall id s,
    _sessions σ !! id = Some s ->
    state s <> Draft /\ 2 <= numSetups s <= 10 /\
    N.of_nat (length (equipmentNames s)) = numSetups s;
  inv_requested : forall id,
    requested_at σ id = true ->
    is_Some (_sessions σ !! id) /\ state (session_at σ id) <> Active;
  inv_shape : forall s i,
    agg_shape (voteCount_at σ s i) (aggregate_handles σ s i);
  inv_votes : forall s i v vt,
    _votes σ !! (s, i, v) = Some vt ->
    submitted vt = true /\
    Forall (fun h => is_input_of v h = true) (handles_of (rating vt) (tags vt));
  inv_acl : forall h p, (h, p) ∈ acl σ -> justified σ h p
}.

(** ** The transition relation of successful calls *)

(** [effect σ c cl σ'] : the call [cl] made in context [c] on storage [σ]
    succeeds and leaves storage [σ']. *)
Inductive effect (σ : storage) (c : callctx) : call -> storage -> Prop :=
| E_create (ti de : string) (dl n : N) (names : list string) (tl : string) :
    block_timestamp c < dl ->
    2 <= n <= 10 ->
    N.of_nat (length names) = n ->
    _sessionCounter σ < MAX_UINT256 ->
    effect σ c (CreateSession ti de dl n names tl)
      (set_session (_sessionCounter σ)
         (mkSession (msg_sender c) ti de dl Active n names tl)
         (set_sessionCounter (_sessionCounter σ + 1) σ))
| E_submit (s i : N) (r : handle) (ts : Array5 handle) (p : inputProof) :
    exists_session σ s ->
    state (session_at σ s) = Active ->
    block_timestamp c <= deadline (session_at σ s) ->
    i < numSetups (session_at σ s) ->
    submitted (vote_at σ s i (msg_sender c)) = false ->
    attested (msg_sender c) p r = true ->
    all5 (attested (msg_sender c) p) ts = true ->
    voteCount_at σ s i < MAX_UINT16 ->
    effect σ c (SubmitVote s i r ts p) (submit_post (msg_sender c) s i r ts σ)
| E_close (s : N) :
    exists_session σ s ->
    organizer (session_at σ s) = msg_sender c ->
    state (session_at σ s) = Active ->
    effect σ c (CloseSession s)
      (set_session s (with_state Closed (session_at σ s)) σ)
| E_rank (s : N) :
    exists_session σ s ->
    state (session_at σ s) = Closed ->
    effect σ c (ComputeRankings s) σ
| E_request (s : N) :
    exists_session σ s ->
    organizer (session_at σ s) = msg_sender c ->
    state (session_at σ s) = Closed ->
    requested_at σ s = false ->
    effect σ c (RequestOrganizerDecryption s)
      (request_post (msg_sender c) s σ)
| E_reveal (s : N) :
    exists_session σ s ->
    organizer (session_at σ s) = msg_sender c ->
    state (session_at σ s) = Closed ->
    effect σ c (RevealEquipment s)
      (set_session s (with_state Revealed (session_at σ s)) σ).

(** ** A worked scenario

    The scenario of the specification: an organizer creates a session with
    two setups, two voters rate setup 0, the organizer closes the session,
    requests decryption and reveals the equipment. *)

Definition alice : address := 1.
Definition bob : address := 2.
Definition carol : address := 3.

Definition bob_rating : handle := HInput bob 0 8.
Definition bob_tags : Array5 handle :=
  mkArray5 (HInput bob 1 1) (HInput bob 2 0) (HInput bob 3 1)
           (HInput bob 4 1) (HInput bob 5 0).
Definition bob_proof : inputProof := handles_of bob_rating bob_tags.

Definition carol_rating : handle := HInput carol 0 6.
Definition carol_tags : Array5 handle :=
  mkArray5 (HInput carol 1 0) (HInput carol 2 1) (HInput carol 3 1)
           (HInput carol 4 1) (HInput carol 5 0).
Definition carol_proof : inputProof := handles_of carol_rating carol_tags.

Definition tx_create : tx :=
  mkTx (mkCtx alice 1000)
    (CreateSession "Cartridges" "Blind test" 4600 2 ["A"; "B"] "").
Definition tx_bob : tx :=
  mkTx (mkCtx bob 1100) (SubmitVote 0 0 bob_rating bob_tags bob_proof).
Definition tx_carol : tx :=
  mkTx (mkCtx carol 1200)
    (SubmitVote 0 0 carol_rating carol_tags carol_proof).
Definition tx_close : tx := mkTx (mkCtx alice 1300) (CloseSession 0).
Definition tx_request : tx :=
  mkTx (mkCtx alice 1400) (RequestOrganizerDecryption 0).
Definition tx_reveal : tx := mkTx (mkCtx alice 1500) (RevealEquipment 0).

Definition s_created : storage := steps init [tx_create].
Definition s_voted : storage := steps init [tx_create; tx_bob; tx_carol].
Definition s_closed : storage :=
  steps init [tx_create; tx_bob; tx_carol; tx_close].
Definition s_requested : storage :=
  steps init [tx_create; tx_bob; tx_carol; tx_close; tx_request].
Definition s_revealed : storage :=
  steps init [tx_create; tx_bob; tx_carol; tx_close; tx_request; tx_reveal].


(** A session in which 256 voters each rate setup 0 with 5 and set the first
    tag only. *)
Definition crowd_vote (k : nat) : tx :=
  let v := N.of_nat k + 10 in
  let r := HInput v 0 5 in
  let t :=
    mkArray5 (HInput v 1 1) (HInput v 2 0) (HInput v 3 0)
             (HInput v 4 0) (HInput v 5 0) in
  mkTx (mkCtx v 1100) (SubmitVote 0 0 r t (handles_of r t)).

Definition crowd_trace : list tx := tx_create :: map crowd_vote (seq 0 256).

(** ** The aggregate of a setup against the ballots folded into it *)

(** [folded σ s i bs]: the aggregate of setup [i] of session [s] in [σ]
    accounts for exactly the ballots [bs]: the counter is their number, each
    of them decrypts, and, once there is one, the rating total decrypts to
    the sum of their ratings modulo [2^16] and each tag total to the sum of
    their tag values modulo [2^8]. *)
Definition folded (σ : storage) (s i : N) (bs : list ballot) : Prop :=
  voteCount_at σ s i = N.of_nat (length bs) /\
  length (ratings_of bs) = length bs /\
  (forall j, j < 5 -> length (tags_of j bs) = length bs) /\
  (bs <> [] ->
   decrypt 16 (total_at σ s i) = Some (Nsum (ratings_of bs) mod 2 ^ 16) /\
   forall j, j < 5 ->
     decrypt 8 (get5 HNone (tagTotals_at σ s i) j)
     = Some (Nsum (tags_of j bs) mod 2 ^ 8)).

(** ** The aggregate handles as folds over the ballots *)

(** [h1 + h2 + ... + hk], associated to the left; the zero handle when there
    is no ballot. *)
Definition fold_handles (hs : list handle) : handle :=
  match hs with
  | [] => HNone
  | h :: rest => foldl FHE_add h rest
  end.

Definition fold_tags (ts : list (Array5 handle)) : Array5 handle :=
  match ts with
  | [] => default_handles
  | t :: rest => foldl (zip5 FHE_add) t rest
  end.

(** Transactions sent by accounts (the zero address signs nothing). *)
Definition real_senders (txs : list tx) : Prop :=
  Forall (fun t => msg_sender (tx_ctx t) <> 0) txs.


(** A session revealed without a decryption request. *)
Definition s_revealed_early : storage :=
  steps init [tx_create; tx_bob; tx_carol; tx_close; tx_reveal].

(** ** Voters of a setup, and a second invariant *)

(** The addresses with a stored ballot for setup [i] of session [s]. *)
Definition voter_of (s i : N) (kv : N * N * address * Vote) : option address :=
  if decide ((kv.1.1.1, kv.1.1.2) = (s, i)) then Some kv.1.2 else None.

Definition voters (σ : storage) (s i : N) : list address :=
  omap (voter_of s i) (map_to_list (_votes σ)).

Record Inv2 (σ : storage) : Prop := mkInv2 {
  inv2_dense : forall id,
    id < _sessionCounter σ -> is_Some (_sessions σ !! id);
  inv2_votes : forall s i v,
    submitted (vote_at σ s i v) = true -> 0 < voteCount_at σ s i;
  inv2_counts : forall s i,
    0 < voteCount_at σ s i ->
    exists_session σ s /\ i < numSetups (session_at σ s) /\
    voteCount_at σ s i <= MAX_UINT16;
  inv2_self : forall s i h,
    0 < voteCount_at σ s i -> h ∈ aggregate_handles σ s i ->
    (h, Contract) ∈ acl σ;
  inv2_voters : forall s i,
    voteCount_at σ s i = N.of_nat (length (voters σ s i))
}.

(** The number of [createSession] transactions of a sequence that succeed. *)
Fixpoint creations (σ : storage) (txs : list tx) : nat :=
  match txs with
  | [] => 0
  | t :: txs' =>
      (match tx_call t with
       | CreateSession _ _ _ _ _ _ => if is_ok (run t σ) then 1 else 0
       | _ => 0
       end + creations (step σ t) txs')%nat
  end.

(** ** The front-end hook [useVinylRigVote] and the results page

    The hook reads the contract through view calls.  Each function below is
    the hook's function run against one storage snapshot: a call that
    reverts is a rejected promise, [try]/[catch] and [.catch] are matches on
    the result, and [Number(x)] of a counter is the counter (exact below
    [2^53]). *)

(** [promise.catch(() => d)]. *)
Definition or_else {A : Type} (r : result A) (d : A) : A :=
  match r with
  | Ok a => a
  | Err _ => d
  end.

Record SessionInfo : Type := mkSessionInfo {
  info_organizer : address;
  info_title : string;
  info_description : string;
  info_deadline : N;
  info_state : N;
  info_numSetups : N;
  info_trackList : string
}.

(** The body of the loop of [fetchSessions] over the ids [0 .. count-1]. *)
Fixpoint fetch_loop (c : callctx) (σ : storage) (ids : list N)
    : result (list SessionInfo) :=
  match ids with
  | [] => Ok []
  | i :: rest =>
      session ← getSession c i σ;
      let '(o, ti, de, dl, st, n, tl) := session in
      more ← fetch_loop c σ rest;
      Ok (mkSessionInfo o ti de dl (state_code st) n tl :: more)
  end.

(** [fetchSessions]: the new value of the [sessions] state, given whether a
    contract and a provider are available and the previous value (kept when
    a call throws). *)
Definition fetchSessions (available : bool) (prev : list SessionInfo)
    (c : callctx) (σ : storage) : list SessionInfo :=
  if negb available then []
  else or_else (sessionCount ← getSessionCount c σ;
                fetch_loop c σ (setup_indices sessionCount)) prev.

Record AggregatedSetup : Type := mkAggregatedSetup {
  agg_setupIndex : N;
  agg_equipmentName : string;
  agg_contractAddress : address;
  agg_ratingHandle : handle;
  agg_tagHandles : list handle;
  agg_voteCount : N
}.

(** [equipmentNames[i] || `Setup ${i + 1}`]: a missing or empty name is
    replaced by the default. *)
Definition name_or_default (equipmentNames : list string) (i : N) : string :=
  match equipmentNames !! N.to_nat i with
  | Some name => if decide (name = "") then "Setup " +:+ pretty (i + 1)
                 else name
  | None => "Setup " +:+ pretty (i + 1)
  end.

(** The body of the loop of [getAggregatedHandles] over the setups. *)
Fixpoint aggregate_loop (contractAddress : address) (c : callctx)
    (sessionId : N) (equipmentNames : list string) (σ : storage)
    (setups : list N) : result (list AggregatedSetup) :=
  match setups with
  | [] => Ok []
  | i :: rest =>
      voteCount ← getVoteCount c sessionId i σ;
      if voteCount =? 0 then
        aggregate_loop contractAddress c sessionId equipmentNames σ rest
      else
        let ratingHandle := or_else (getSessionTotal c sessionId i σ) HNone in
        let tagHandles :=
          map (fun j => or_else (getTagTotal c sessionId i j σ) HNone)
              [0; 1; 2; 3; 4] in
        more ← aggregate_loop contractAddress c sessionId equipmentNames σ rest;
        Ok (mkAggregatedSetup i (name_or_default equipmentNames i)
              contractAddress ratingHandle tagHandles voteCount :: more)
  end.

Definition getAggregatedHandles (provider : bool)
    (contractInfo : option address) (c : callctx) (sessionId : N)
    (σ : storage) : list AggregatedSetup :=
  match provider, contractInfo with
  | true, Some contractAddress =>
      or_else
        (session ← getSession c sessionId σ;
         let '(_, _, _, _, _, numSetups, _) := session in
         let equipmentNames := or_else (getEquipmentNames c sessionId σ) [] in
         aggregate_loop contractAddress c sessionId equipmentNames σ
           (setup_indices numSetups))
        []
  | _, _ => []
  end.

(** [handlesToDecrypt] of [decryptResults]: the rating handle of each
    entry followed by its tag handles, each with the contract address. *)
Definition handlesToDecrypt (aggregatedData : list AggregatedSetup)
    : list (handle * address) :=
  flat_map (fun setup =>
      (agg_ratingHandle setup, agg_contractAddress setup)
      :: map (fun h => (h, agg_contractAddress setup)) (agg_tagHandles setup))
    aggregatedData.

(** The entry [getAggregatedHandles] builds for a setup. *)
Definition aggregated_entry (contractAddress : address) (names : list string)
    (σ : storage) (sessionId i : N) : AggregatedSetup :=
  mkAggregatedSetup i (name_or_default names i) contractAddress
    (total_at σ sessionId i) (to_list5 (tagTotals_at σ sessionId i))
    (voteCount_at σ sessionId i).

(** The hook's [hasVoted]: false without a contract, a provider or a user
    address, and when the call throws. *)
Definition hook_hasVoted (available : bool) (userAddress : option address)
    (c : callctx) (sessionId setupIndex : N) (σ : storage) : bool :=
  match available, userAddress with
  | true, Some user => or_else (hasVoted c sessionId setupIndex user σ) false
  | _, _ => false
  end.

(** [checkVotedStatus] of the vote page: the setup indices below
    [numSetups] for which the hook's [hasVoted] answers true, in the order
    they are added to the set. *)
Definition checkVotedStatus (available : bool) (userAddress : option address)
    (c : callctx) (sessionId numSetups : N) (σ : storage) : list N :=
  filter (fun i => hook_hasVoted available userAddress c sessionId i σ = true)
    (setup_indices numSetups).

(** * Properties *)

(** ** The result monad *)

Lemma bind_Ok {A B : Type} (m : result A) (k : A -> result B) (b : B) :
  m ≫= k = Ok b <-> exists a, m = Ok a /\ k a = Ok b.
Proof.
  destruct m as [a|e]; simpl; split.
  - intros H. exists a. done.
  - intros (a' & Ha & Hk). by simplify_eq.
  - discriminate.
  - intros (a' & Ha & _). discriminate.
Qed.

Lemma bind_Err_l {A B : Type} (m : result A) (k : A -> result B) (e : error) :
  m = Err e -> m ≫= k = Err e.
Proof. by intros ->. Qed.

Lemma require_Ok (c : bool) (reason : string) (u : unit) :
  require c reason = Ok u <-> c = true.
Proof. destruct c, u; simpl; split; done. Qed.

Lemma require_true (c : bool) (reason : string) :
  c = true -> require c reason = Ok tt.
Proof. by intros ->. Qed.

Lemma require_false (c : bool) (reason : string) :
  c = false -> require c reason = Err (Revert reason).
Proof. by intros ->. Qed.

Lemma checked_inc_Ok (max x y : N) :
  checked_inc max x = Ok y <-> x < max /\ y = x + 1.
Proof.
  unfold checked_inc. destruct (N.ltb_spec x max); split.
  - intros [= <-]. done.
  - intros [_ ->]. done.
  - discriminate.
  - intros [? _]. lia.
Qed.

(** ** Ciphertext admission *)

Lemma FHE_fromExternal_Ok (sender : address) (ext h : handle)
    (proof : inputProof) :
  FHE_fromExternal sender ext proof = Ok h <->
  attested sender proof ext = true /\ h = ext.
Proof.
  unfold FHE_fromExternal, attested. destruct ext as [|u n v|l r].
  - split; [discriminate | intros [? _]; discriminate].
  - destruct (bool_decide (u = sender) && bool_decide (HInput u n v ∈ proof));
      split; try discriminate.
    + intros [= <-]. done.
    + intros [_ ->]. done.
    + intros [? _]. discriminate.
  - split; [discriminate | intros [? _]; discriminate].
Qed.

Lemma mapM5_fromExternal_Ok (sender : address) (exts hs : Array5 handle)
    (proof : inputProof) :
  mapM5 (fun t => FHE_fromExternal sender t proof) exts = Ok hs <->
  all5 (attested sender proof) exts = true /\ hs = exts.
Proof.
  unfold mapM5, all5. destruct exts as [e0 e1 e2 e3 e4]. simpl.
  split.
  - intros H.
    apply bind_Ok in H as (b0 & H0 & H). apply FHE_fromExternal_Ok in H0 as [-> ->].
    apply bind_Ok in H as (b1 & H1 & H). apply FHE_fromExternal_Ok in H1 as [-> ->].
    apply bind_Ok in H as (b2 & H2 & H). apply FHE_fromExternal_Ok in H2 as [-> ->].
    apply bind_Ok in H as (b3 & H3 & H). apply FHE_fromExternal_Ok in H3 as [-> ->].
    apply bind_Ok in H as (b4 & H4 & H). apply FHE_fromExternal_Ok in H4 as [-> ->].
    by simplify_eq.
  - intros [H ->].
    repeat (apply andb_true_iff in H as [H ?]).
    assert (Hadm : forall e, attested sender proof e = true ->
              FHE_fromExternal sender e proof = Ok e).
    { intros e He. by apply FHE_fromExternal_Ok. }
    rewrite !Hadm by done. done.
Qed.

Lemma attested_is_input_of (sender : address) (proof : inputProof)
    (h : handle) :
  attested sender proof h = true -> is_input_of sender h = true.
Proof.
  destruct h; simpl; try done. intros H. by apply andb_true_iff in H as [? _].
Qed.

Lemma is_input_of_is_input (u : address) (h : handle) :
  is_input_of u h = true -> is_input h = true.
Proof. by destruct h. Qed.



Lemma decrypt_input (w : N) (u : address) (h : handle) :
  is_input_of u h = true -> exists v, decrypt w h = Some (v mod 2 ^ w).
Proof. destruct h; simpl; try done. eauto. Qed.

(** ** Reading storage after a write *)

Local Ltac store_unfold :=
  unfold session_at, vote_at, total_at, tagTotals_at, voteCount_at,
    requested_at, aggregate_vote, grant_vote,
    set_sessionCounter, set_session, set_vote, set_totals, set_voteCount,
    set_requested, set_acl in *; simpl in *.

Local Ltac store_tac :=
  intros; store_unfold; repeat case_match; store_unfold;
  rewrite ?lookup_insert in *; repeat case_decide; simplify_eq;
  try done; try congruence.

Lemma session_at_set_session (σ : storage) (id id' : N) (s : Session) :
  session_at (set_session id s σ) id' =
  if decide (id = id') then s else session_at σ id'.
Proof. store_tac. Qed.

Lemma voteCount_at_set_voteCount (σ : storage) (s i s' i' n : N) :
  voteCount_at (set_voteCount s i n σ) s' i' =
  if decide ((s, i) = (s', i')) then n else voteCount_at σ s' i'.
Proof. store_tac. Qed.

Lemma vote_at_set_vote (σ : storage) (s i s' i' : N) (u u' : address)
    (v : Vote) :
  vote_at (set_vote s i u v σ) s' i' u' =
  if decide ((s, i, u) = (s', i', u')) then v else vote_at σ s' i' u'.
Proof. store_tac. Qed.

Lemma total_at_set_totals (σ : storage) (s i s' i' : N) (r : handle)
    (t : Array5 handle) :
  total_at (set_totals s i r t σ) s' i' =
  if decide ((s, i) = (s', i')) then r else total_at σ s' i'.
Proof. store_tac. Qed.

Lemma tagTotals_at_set_totals (σ : storage) (s i s' i' : N) (r : handle)
    (t : Array5 handle) :
  tagTotals_at (set_totals s i r t σ) s' i' =
  if decide ((s, i) = (s', i')) then t else tagTotals_at σ s' i'.
Proof. store_tac. Qed.

Lemma requested_at_set_requested (σ : storage) (id id' : N) (b : bool) :
  requested_at (set_requested id b σ) id' =
  if decide (id = id') then b else requested_at σ id'.
Proof. store_tac. Qed.

(** ** When each function succeeds, and what it then returns *)

Lemma sessionExists_Ok (σ : storage) (id : N) (u : unit) :
  sessionExists id σ = Ok u <-> exists_session σ id.
Proof.
  unfold sessionExists, exists_session. rewrite require_Ok, negb_true_iff.
  by rewrite bool_decide_eq_false.
Qed.

Lemma sessionExists_Err (σ : storage) (id : N) :
  ~ exists_session σ id -> sessionExists id σ = Err SessionNotFound.
Proof.
  unfold sessionExists, exists_session. intros H.
  apply require_false, negb_false_iff, bool_decide_eq_true.
  destruct (decide (organizer (session_at σ id) = 0)); done.
Qed.

Local Ltac peel H :=
  let u := fresh "u" in
  let G := fresh "G" in
  apply bind_Ok in H as (u & G & H);
  first [apply sessionExists_Ok in G | apply require_Ok in G | idtac].

Lemma createSession_Ok (c : callctx) (ti de : string) (dl n : N)
    (names : list string) (tl : string) (σ σ' : storage) (id : N) :
  createSession c ti de dl n names tl σ = Ok (id, σ') <->
  block_timestamp c < dl /\ 2 <= n <= 10 /\
  N.of_nat (length names) = n /\ _sessionCounter σ < MAX_UINT256 /\
  id = _sessionCounter σ /\
  σ' = set_session (_sessionCounter σ)
         (mkSession (msg_sender c) ti de dl Active n names tl)
         (set_sessionCounter (_sessionCounter σ + 1) σ).
Proof.
  unfold createSession. split.
  - intros H. peel H. peel H. peel H. peel H.
    apply checked_inc_Ok in G2 as [? ->]. simplify_eq.
    apply N.ltb_lt in G. apply andb_true_iff in G0 as [?%N.leb_le ?%N.leb_le].
    apply N.eqb_eq in G1. done.
  - intros (H1 & [H2 H3] & H4 & H5 & -> & ->).
    rewrite (require_true (_ <? _)) by by apply N.ltb_lt. simpl.
    rewrite (require_true (_ && _))
      by (apply andb_true_iff; split; by apply N.leb_le). simpl.
    rewrite (require_true (_ =? _)) by by apply N.eqb_eq. simpl.
    unfold checked_inc. by rewrite (proj2 (N.ltb_lt _ _) H5).
Qed.

Lemma submitVote_Ok (c : callctx) (s i : N) (r : handle)
    (ts : Array5 handle) (p : inputProof) (σ σ' : storage) :
  submitVote c s i r ts p σ = Ok σ' <->
  exists_session σ s /\ state (session_at σ s) = Active /\
  block_timestamp c <= deadline (session_at σ s) /\
  i < numSetups (session_at σ s) /\
  submitted (vote_at σ s i (msg_sender c)) = false /\
  attested (msg_sender c) p r = true /\
  all5 (attested (msg_sender c) p) ts = true /\
  voteCount_at σ s i < MAX_UINT16 /\
  σ' = submit_post (msg_sender c) s i r ts σ.
Proof.
  unfold submitVote, onlyActiveSession, submit_post. split.
  - intros H. peel H.
    peel H. peel G0. apply require_Ok in G0.
    peel H. peel H. peel H. peel H. peel H.
    apply FHE_fromExternal_Ok in G4 as [? ->].
    apply mapM5_fromExternal_Ok in G5 as [? ->].
    apply checked_inc_Ok in G6 as [Hlt ->].
    apply bool_decide_eq_true in G1. apply N.leb_le in G0.
    apply N.ltb_lt in G2. apply negb_true_iff in G3.
    simplify_eq. repeat split; try done.
    revert Hlt. unfold aggregate_vote. by store_tac.
  - intros (H1 & H2 & H3 & H4 & H5 & H6 & H7 & H8 & ->).
    rewrite (proj2 (sessionExists_Ok _ _ tt) H1). simpl.
    rewrite (require_true (bool_decide _)) by by apply bool_decide_eq_true.
    simpl.
    rewrite (require_true (_ <=? _)) by by apply N.leb_le. simpl.
    rewrite (require_true (_ <? _)) by by apply N.ltb_lt. simpl.
    rewrite (require_true (negb _)) by by apply negb_true_iff. simpl.
    rewrite (proj2 (FHE_fromExternal_Ok _ _ _ _) (conj H6 eq_refl)). simpl.
    rewrite (proj2 (mapM5_fromExternal_Ok _ _ _ _) (conj H7 eq_refl)). simpl.
    unfold checked_inc.
    match goal with |- context [?a <? MAX_UINT16] =>
      replace (a <? MAX_UINT16) with true; [done|] end.
    symmetry. apply N.ltb_lt. revert H8. unfold aggregate_vote. by store_tac.
Qed.

Lemma closeSession_Ok (c : callctx) (s : N) (σ σ' : storage) :
  closeSession c s σ = Ok σ' <->
  exists_session σ s /\ organizer (session_at σ s) = msg_sender c /\
  state (session_at σ s) = Active /\
  σ' = set_session s (with_state Closed (session_at σ s)) σ.
Proof.
  unfold closeSession, onlyOrganizer. split.
  - intros H. peel H. peel H. peel H.
    apply bool_decide_eq_true in G0, G1. by simplify_eq.
  - intros (H1 & H2 & H3 & ->).
    rewrite (proj2 (sessionExists_Ok _ _ tt) H1). simpl.
    rewrite !(require_true (bool_decide _)) by by apply bool_decide_eq_true.
    done.
Qed.

Lemma revealEquipment_Ok (c : callctx) (s : N) (σ σ' : storage) :
  revealEquipment c s σ = Ok σ' <->
  exists_session σ s /\ organizer (session_at σ s) = msg_sender c /\
  state (session_at σ s) = Closed /\
  σ' = set_session s (with_state Revealed (session_at σ s)) σ.
Proof.
  unfold revealEquipment, onlyOrganizer. split.
  - intros H. peel H. peel H. peel H.
    apply bool_decide_eq_true in G0, G1. by simplify_eq.
  - intros (H1 & H2 & H3 & ->).
    rewrite (proj2 (sessionExists_Ok _ _ tt) H1). simpl.
    rewrite !(require_true (bool_decide _)) by by apply bool_decide_eq_true.
    done.
Qed.

Lemma computeRankings_Ok (c : callctx) (s : N) (σ σ' : storage) :
  computeRankings c s σ = Ok σ' <->
  exists_session σ s /\ state (session_at σ s) = Closed /\ σ' = σ.
Proof.
  unfold computeRankings, onlyClosedSession. split.
  - intros H. peel H. peel H. apply bool_decide_eq_true in G0.
    by simplify_eq.
  - intros (H1 & H2 & ->).
    rewrite (proj2 (sessionExists_Ok _ _ tt) H1). simpl.
    rewrite !(require_true (bool_decide _)) by by apply bool_decide_eq_true.
    done.
Qed.

Lemma requestOrganizerDecryption_Ok (c : callctx) (s : N) (σ σ' : storage) :
  requestOrganizerDecryption c s σ = Ok σ' <->
  exists_session σ s /\ organizer (session_at σ s) = msg_sender c /\
  state (session_at σ s) = Closed /\ requested_at σ s = false /\
  σ' = request_post (msg_sender c) s σ.
Proof.
  unfold requestOrganizerDecryption, onlyOrganizer, onlyClosedSession,
    request_post.
  split.
  - intros H. peel H. peel H. peel H. peel H.
    apply bool_decide_eq_true in G0, G1. apply negb_true_iff in G2.
    by simplify_eq.
  - intros (H1 & H2 & H3 & H4 & ->).
    rewrite (proj2 (sessionExists_Ok _ _ tt) H1). simpl.
    rewrite !(require_true (bool_decide _)) by by apply bool_decide_eq_true.
    simpl. rewrite (require_true (negb _)) by by apply negb_true_iff.
    done.
Qed.

(** ** Grants *)

Lemma elem_of_allow_and_this (who : address) (l : ACL) (hs : list handle)
    (h : handle) (p : principal) :
  (h, p) ∈ foldl (allow_and_this who) l hs <->
  (h, p) ∈ l \/ (h ∈ hs /\ (p = User who \/ p = Contract)).
Proof.
  revert l. induction hs as [|h' hs IH]; intros l; simpl.
  - rewrite elem_of_nil. tauto.
  - rewrite IH. unfold allow_and_this, FHE_allow.
    rewrite !elem_of_cons. split.
    + intros [[?|[?|?]]|[? ?]]; simplify_eq; tauto.
    + intros [?|[[-> | ?] [-> | ->]]]; tauto.
Qed.

Lemma elem_of_allow_this (l : ACL) (hs : list handle) (h : handle)
    (p : principal) :
  (h, p) ∈ foldl allow_this l hs <->
  (h, p) ∈ l \/ (h ∈ hs /\ p = Contract).
Proof.
  revert l. induction hs as [|h' hs IH]; intros l; simpl.
  - rewrite elem_of_nil. tauto.
  - rewrite IH. unfold allow_this, FHE_allow.
    rewrite !elem_of_cons. split.
    + intros [[?|?]|[? ?]]; simplify_eq; tauto.
    + intros [?|[[-> | ?] ->]]; tauto.
Qed.

Lemma elem_of_grant_setup (who : address) (s : N) (σ : storage) (l : ACL)
    (i : N) (h : handle) (p : principal) :
  (h, p) ∈ grant_setup who s σ l i <->
  (h, p) ∈ l \/
  (0 < voteCount_at σ s i /\ h ∈ aggregate_handles σ s i /\
   (p = User who \/ p = Contract)).
Proof.
  unfold grant_setup, aggregate_handles, handles_of.
  destruct (N.ltb_spec 0 (voteCount_at σ s i)) as [Hpos|Hz].
  - rewrite elem_of_allow_and_this. unfold allow_and_this, FHE_allow.
    rewrite !elem_of_cons. split.
    + intros [[?|[?|?]]|[? ?]]; simplify_eq; tauto.
    + intros [?|(_ & [-> | ?] & [-> | ->])]; tauto.
  - split; [tauto|]. intros [?|[? _]]; [done|lia].
Qed.

Lemma elem_of_grant_setups (who : address) (s : N) (σ : storage) (l : ACL)
    (idx : list N) (h : handle) (p : principal) :
  (h, p) ∈ foldl (grant_setup who s σ) l idx <->
  (h, p) ∈ l \/
  (exists i, i ∈ idx /\ 0 < voteCount_at σ s i /\
     h ∈ aggregate_handles σ s i /\ (p = User who \/ p = Contract)).
Proof.
  revert l. induction idx as [|i idx IH]; intros l; simpl.
  - split; [tauto|]. intros [?|(i & Hi & _)]; [done|].
    by apply elem_of_nil in Hi.
  - rewrite IH, elem_of_grant_setup. split.
    + intros [[?|?]|(j & Hj & ?)]; [tauto| |].
      * right. exists i. split; [apply elem_of_cons; tauto|done].
      * right. exists j. split; [apply elem_of_cons; tauto|done].
    + intros [?|(j & Hj & ?)]; [tauto|].
      apply elem_of_cons in Hj as [->|Hj]; [tauto|].
      right. by exists j.
Qed.

Lemma elem_of_setup_indices (n i : N) : i ∈ setup_indices n <-> i < n.
Proof.
  unfold setup_indices. rewrite list_elem_of_fmap. split.
  - intros (k & -> & Hk). apply elem_of_seq in Hk. lia.
  - intros Hi. exists (N.to_nat i). split; [by rewrite N2Nat.id|].
    apply elem_of_seq. lia.
Qed.

Lemma acl_request_post (who : address) (s : N) (σ : storage) (h : handle)
    (p : principal) :
  (h, p) ∈ acl (request_post who s σ) <->
  (h, p) ∈ acl σ \/
  (exists i, i < numSetups (session_at σ s) /\ 0 < voteCount_at σ s i /\
     h ∈ aggregate_handles σ s i /\ (p = User who \/ p = Contract)).
Proof.
  unfold request_post. simpl. rewrite elem_of_grant_setups.
  by setoid_rewrite elem_of_setup_indices.
Qed.

(** ** The storage after a successful [submitVote] *)

Lemma sessions_submit_post (u : address) (s i : N) (r : handle)
    (ts : Array5 handle) (σ : storage) :
  _sessions (submit_post u s i r ts σ) = _sessions σ.
Proof. unfold submit_post. store_tac. Qed.

Lemma session_at_submit_post (u : address) (s i : N) (r : handle)
    (ts : Array5 handle) (σ : storage) (id : N) :
  session_at (submit_post u s i r ts σ) id = session_at σ id.
Proof. unfold session_at. by rewrite sessions_submit_post. Qed.

Lemma sessionCounter_submit_post (u : address) (s i : N) (r : handle)
    (ts : Array5 handle) (σ : storage) :
  _sessionCounter (submit_post u s i r ts σ) = _sessionCounter σ.
Proof. unfold submit_post. store_tac. Qed.

Lemma requested_at_submit_post (u : address) (s i : N) (r : handle)
    (ts : Array5 handle) (σ : storage) (id : N) :
  requested_at (submit_post u s i r ts σ) id = requested_at σ id.
Proof. unfold submit_post. store_tac. Qed.

Lemma votes_submit_post (u : address) (s i : N) (r : handle)
    (ts : Array5 handle) (σ : storage) :
  _votes (submit_post u s i r ts σ) =
  <[(s, i, u) := mkVote r ts true]> (_votes σ).
Proof. unfold submit_post. store_tac. Qed.

Lemma vote_at_submit_post (u : address) (s i : N) (r : handle)
    (ts : Array5 handle) (σ : storage) (s' i' : N) (u' : address) :
  vote_at (submit_post u s i r ts σ) s' i' u' =
  if decide ((s, i, u) = (s', i', u')) then mkVote r ts true
  else vote_at σ s' i' u'.
Proof.
  unfold vote_at. rewrite votes_submit_post, lookup_insert.
  by case_decide.
Qed.

Lemma voteCount_at_submit_post (u : address) (s i : N) (r : handle)
    (ts : Array5 handle) (σ : storage) (s' i' : N) :
  voteCount_at (submit_post u s i r ts σ) s' i' =
  if decide ((s, i) = (s', i')) then voteCount_at σ s i + 1
  else voteCount_at σ s' i'.
Proof. unfold submit_post. store_tac. Qed.

(** The aggregate handles after folding a ballot [(r, ts)] into a setup
    that had [n] votes and aggregate [(tot, tts)]. *)
Lemma total_at_submit_post (u : address) (s i : N) (r : handle)
    (ts : Array5 handle) (σ : storage) (s' i' : N) :
  total_at (submit_post u s i r ts σ) s' i' =
  if decide ((s, i) = (s', i'))
  then (if voteCount_at σ s i =? 0 then r
        else FHE_add (total_at σ s i) r)
  else total_at σ s' i'.
Proof. unfold submit_post. store_tac. Qed.

Lemma tagTotals_at_submit_post (u : address) (s i : N) (r : handle)
    (ts : Array5 handle) (σ : storage) (s' i' : N) :
  tagTotals_at (submit_post u s i r ts σ) s' i' =
  if decide ((s, i) = (s', i'))
  then (if voteCount_at σ s i =? 0 then ts
        else zip5 FHE_add (tagTotals_at σ s i) ts)
  else tagTotals_at σ s' i'.
Proof. unfold submit_post. store_tac. Qed.

Lemma aggregate_handles_submit_post (u : address) (s i : N) (r : handle)
    (ts : Array5 handle) (σ : storage) (s' i' : N) :
  aggregate_handles (submit_post u s i r ts σ) s' i' =
  if decide ((s, i) = (s', i'))
  then (if voteCount_at σ s i =? 0 then handles_of r ts
        else handles_of (FHE_add (total_at σ s i) r)
               (zip5 FHE_add (tagTotals_at σ s i) ts))
  else aggregate_handles σ s' i'.
Proof.
  unfold aggregate_handles.
  rewrite total_at_submit_post, tagTotals_at_submit_post.
  case_decide; [|done]. by case_match.
Qed.

Lemma acl_grant_vote (u : address) (s i : N) (r : handle)
    (ts : Array5 handle) (σ : storage) (h : handle) (p : principal) :
  (h, p) ∈ acl (grant_vote u s i r ts σ) <->
  (h, p) ∈ acl σ \/
  (h ∈ handles_of r ts /\ (p = User u \/ p = Contract)) \/
  (h ∈ aggregate_handles σ s i /\ p = Contract).
Proof.
  unfold grant_vote, aggregate_handles, handles_of, set_acl. cbn [acl].
  rewrite elem_of_allow_this. unfold allow_this at 1, FHE_allow.
  rewrite !elem_of_cons, elem_of_allow_and_this.
  unfold allow_and_this, FHE_allow. rewrite !elem_of_cons.
  split.
  - intros [[?|[[?|[?|?]]|[? ?]]]|[? ?]]; simplify_eq; tauto.
  - intros [?|[[[-> | ?] [-> | ->]]|[[-> | ?] ->]]]; tauto.
Qed.

Lemma acl_submit_post (u : address) (s i : N) (r : handle)
    (ts : Array5 handle) (σ : storage) (h : handle) (p : principal) :
  (h, p) ∈ acl (submit_post u s i r ts σ) <->
  (h, p) ∈ acl σ \/
  (h ∈ handles_of r ts /\ (p = User u \/ p = Contract)) \/
  (h ∈ aggregate_handles (submit_post u s i r ts σ) s i /\ p = Contract).
Proof.
  unfold submit_post at 1. rewrite acl_grant_vote.
  assert (acl (set_voteCount s i
      (voteCount_at (aggregate_vote s i r ts
         (set_vote s i u (mkVote r ts true) σ)) s i + 1)
      (aggregate_vote s i r ts (set_vote s i u (mkVote r ts true) σ)))
    = acl σ) as -> by store_tac.
  done.
Qed.

(** ** Successful transactions are exactly the transitions *)

Lemma run_Ok_effect (t : tx) (σ σ' : storage) :
  run t σ = Ok σ' <-> effect σ (tx_ctx t) (tx_call t) σ'.
Proof.
  destruct t as [c cl]. unfold run. simpl. split.
  - destruct cl; intros H.
    + apply bind_Ok in H as ([id σ1] & H & [= <-]).
      apply createSession_Ok in H as (? & ? & ? & ? & -> & ->).
      by constructor.
    + apply submitVote_Ok in H as (? & ? & ? & ? & ? & ? & ? & ? & ->).
      by constructor.
    + apply closeSession_Ok in H as (? & ? & ? & ->). by constructor.
    + apply computeRankings_Ok in H as (? & ? & ->). by constructor.
    + apply requestOrganizerDecryption_Ok in H as (? & ? & ? & ? & ->).
      by constructor.
    + apply revealEquipment_Ok in H as (? & ? & ? & ->). by constructor.
  - inversion 1; subst.
    + apply bind_Ok. eexists (_, _). split; [|done].
      by apply createSession_Ok.
    + by apply submitVote_Ok.
    + by apply closeSession_Ok.
    + by apply computeRankings_Ok.
    + by apply requestOrganizerDecryption_Ok.
    + by apply revealEquipment_Ok.
Qed.

Lemma step_cases (σ : storage) (t : tx) :
  step σ t = σ \/ effect σ (tx_ctx t) (tx_call t) (step σ t).
Proof.
  unfold step. destruct (run t σ) as [σ'|e] eqn:H; [|by left].
  right. by apply run_Ok_effect.
Qed.

(** ** The invariant holds in every reachable storage *)

Lemma exists_session_lookup (σ : storage) (s : N) :
  exists_session σ s ->
  exists ss, _sessions σ !! s = Some ss /\ session_at σ s = ss.
Proof.
  unfold exists_session, session_at.
  destruct (_sessions σ !! s) as [ss|]; simpl; [eauto|done].
Qed.

Lemma session_at_lookup (σ : storage) (s : N) (ss : Session) :
  _sessions σ !! s = Some ss -> session_at σ s = ss.
Proof. unfold session_at. by intros ->. Qed.

Lemma justified_mono (σ σ' : storage) (h : handle) (p : principal) :
  (forall s, requested_at σ s = true ->
     requested_at σ' s = true /\
     organizer (session_at σ' s) = organizer (session_at σ s) /\
     forall i, voteCount_at σ' s i = voteCount_at σ s i /\
               aggregate_handles σ' s i = aggregate_handles σ s i) ->
  justified σ h p -> justified σ' h p.
Proof.
  intros Hmono [?|[?|(s & i & Hreq & Hp & Hpos & Hin)]].
  - by left.
  - by right; left.
  - right; right. destruct (Hmono s Hreq) as (Hreq' & Horg & Hagg).
    destruct (Hagg i) as [Hc Ha]. exists s, i.
    rewrite Hreq', Horg, Hc, Ha. done.
Qed.

Lemma Inv_init : Inv init.
Proof.
  split; try done.
  intros h p H. by apply elem_of_nil in H.
Qed.

Lemma attested_handles (u : address) (p : inputProof) (r : handle)
    (ts : Array5 handle) :
  attested u p r = true -> all5 (attested u p) ts = true ->
  Forall (fun h => is_input_of u h = true) (handles_of r ts).
Proof.
  intros Hr Hts. unfold all5 in Hts.
  repeat (apply andb_true_iff in Hts as [Hts ?]).
  unfold handles_of, to_list5.
  repeat constructor; by apply (attested_is_input_of u p).
Qed.

Lemma Inv_set_state (σ : storage) (s : N) (st : SessionState) :
  Inv σ -> exists_session σ s -> st <> Draft -> st <> Active ->
  Inv (set_session s (with_state st (session_at σ s)) σ).
Proof.
  intros HI Hex Hd Ha.
  destruct (exists_session_lookup σ s Hex) as (ss & Hss & Hat).
  assert (Horg : forall id,
    organizer (session_at (set_session s (with_state st (session_at σ s)) σ) id)
    = organizer (session_at σ id)).
  { intros id. rewrite session_at_set_session. by case_decide; simplify_eq. }
  split.
  - intros id s' Hl. simpl in Hl. rewrite lookup_insert in Hl.
    case_decide; simplify_eq; by eapply (inv_fresh σ HI).
  - intros id s' Hl. simpl in Hl. rewrite lookup_insert in Hl.
    case_decide; simplify_eq; [|by eapply (inv_wf σ HI)].
    destruct (inv_wf σ HI _ _ Hss) as (? & ? & ?). done.
  - intros id Hreq. destruct (inv_requested σ HI id Hreq) as [Hsome Hst].
    split.
    + simpl. rewrite lookup_insert. by case_decide.
    + rewrite session_at_set_session. by case_decide.
  - apply (inv_shape σ HI).
  - apply (inv_votes σ HI).
  - intros h p Hin. apply (justified_mono σ); [|by apply (inv_acl σ HI)].
    intros id Hreq. by rewrite Horg.
Qed.

Lemma effect_Inv (σ σ' : storage) (c : callctx) (cl : call) :
  Inv σ -> effect σ c cl σ' -> Inv σ'.
Proof.
  intros HI Heff. destruct Heff.
  - (* createSession *)
    assert (Hold : forall id, is_Some (_sessions σ !! id) ->
              id <> _sessionCounter σ).
    { intros id [ss Hss] ->. apply (inv_fresh σ HI) in Hss. lia. }
    split.
    + intros id s' Hl. simpl in Hl |- *. rewrite lookup_insert in Hl.
      case_decide; simplify_eq; [lia|].
      apply (inv_fresh σ HI) in Hl. lia.
    + intros id s' Hl. simpl in Hl. rewrite lookup_insert in Hl.
      case_decide; simplify_eq; [done|by eapply (inv_wf σ HI)].
    + intros id Hreq. destruct (inv_requested σ HI id Hreq) as [Hsome Hst].
      pose proof (Hold id Hsome). split.
      * simpl. by rewrite lookup_insert_ne.
      * rewrite session_at_set_session. by rewrite decide_False.
    + apply (inv_shape σ HI).
    + apply (inv_votes σ HI).
    + intros h p Hin. apply (justified_mono σ); [|by apply (inv_acl σ HI)].
      intros id Hreq. destruct (inv_requested σ HI id Hreq) as [Hsome Hst].
      pose proof (Hold id Hsome).
      rewrite session_at_set_session. by rewrite decide_False.
  - (* submitVote *)
    split.
    + intros id s'. rewrite sessions_submit_post, sessionCounter_submit_post.
      apply (inv_fresh σ HI).
    + intros id s'. rewrite sessions_submit_post. apply (inv_wf σ HI).
    + intros id. rewrite requested_at_submit_post, sessions_submit_post,
        session_at_submit_post. apply (inv_requested σ HI).
    + intros s' i'. rewrite voteCount_at_submit_post,
        aggregate_handles_submit_post.
      case_decide; [|apply (inv_shape σ HI)]. simplify_eq.
      destruct (N.eqb_spec (voteCount_at σ s' i') 0) as [Hz|Hnz].
      * rewrite Hz. repeat split; intros; try lia.
        eapply Forall_impl; [by eapply attested_handles|].
        intros h. apply is_input_of_is_input.
      * repeat split; intros; try lia.
        unfold handles_of, to_list5, zip5, FHE_add. simpl.
        by repeat constructor.
    + intros s' i' v vt. rewrite votes_submit_post, lookup_insert.
      case_decide; [|apply (inv_votes σ HI)]. simplify_eq.
      intros [= <-]. simpl. split; [done|]. by eapply attested_handles.
    + intros h q Hin. apply acl_submit_post in Hin as [Hin|[[Hin Hq]|[_ ->]]].
      * apply (justified_mono σ); [|by apply (inv_acl σ HI)].
        intros id Hreq.
        destruct (inv_requested σ HI id Hreq) as [_ Hst].
        assert (id <> s) by congruence.
        rewrite requested_at_submit_post, session_at_submit_post.
        repeat split; try done.
        -- rewrite voteCount_at_submit_post.
           by rewrite decide_False by congruence.
        -- rewrite aggregate_handles_submit_post.
           by rewrite decide_False by congruence.
      * destruct Hq as [-> | ->]; [|by left]. right; left.
        exists (msg_sender c). split; [|done].
        pose proof (attested_handles _ _ _ _ H4 H5) as Hall.
        rewrite Forall_forall in Hall. by apply Hall.
      * by left.
  - (* closeSession *)
    by apply Inv_set_state.
  - (* computeRankings *)
    done.
  - (* requestOrganizerDecryption *)
    split.
    + apply (inv_fresh σ HI).
    + apply (inv_wf σ HI).
    + intros id. unfold request_post.
      rewrite requested_at_set_requested. case_decide.
      * simplify_eq. intros _.
        destruct (exists_session_lookup σ id) as (ss & Hss & Hat); [done|].
        split; [by exists ss|]. change (state (session_at σ id) <> Active).
        congruence.
      * apply (inv_requested σ HI).
    + apply (inv_shape σ HI).
    + apply (inv_votes σ HI).
    + intros h q Hin.
      assert (Hmono : forall h q, justified σ h q ->
                justified (request_post (msg_sender c) s σ) h q).
      { intros h' q'. apply justified_mono. intros id Hreq.
        unfold request_post. rewrite requested_at_set_requested.
        split; [by case_decide|]. done. }
      apply acl_request_post in Hin as [Hin|(i & Hi & Hpos & Hagg & Hq)].
      * by apply Hmono, (inv_acl σ HI).
      * destruct Hq as [-> | ->]; [|by left]. right; right.
        exists s, i. unfold request_post.
        rewrite requested_at_set_requested, decide_True by done.
        repeat split; try done.
        change (User (msg_sender c) = User (organizer (session_at σ s))).
        congruence.
  - (* revealEquipment *)
    by apply Inv_set_state.
Qed.

Lemma step_Inv (σ : storage) (t : tx) : Inv σ -> Inv (step σ t).
Proof.
  intros HI. destruct (step_cases σ t) as [-> | H]; [done|].
  by eapply effect_Inv.
Qed.

Lemma steps_Inv (σ : storage) (ts : list tx) : Inv σ -> Inv (steps σ ts).
Proof.
  revert σ. induction ts as [|t ts IH]; intros σ HI; [done|].
  simpl. by apply IH, step_Inv.
Qed.

Lemma reachable_Inv (σ : storage) : reachable σ -> Inv σ.
Proof. intros [ts ->]. apply steps_Inv, Inv_init. Qed.

Lemma reachable_step (σ : storage) (t : tx) :
  reachable σ -> reachable (step σ t).
Proof.
  intros [ts ->]. exists (ts ++ [t]). unfold steps. by rewrite foldl_app.
Qed.

Lemma reachable_steps (σ : storage) (ts : list tx) :
  reachable σ -> reachable (steps σ ts).
Proof.
  intros [ts0 ->]. exists (ts0 ++ ts). unfold steps. by rewrite foldl_app.
Qed.

(** ** What a transaction preserves *)

Lemma with_state_id (s : Session) : with_state (state s) s = s.
Proof. by destruct s. Qed.

(** A stored session keeps every field but its state, and its state only
    moves from Active to Closed or from Closed to Revealed. *)
Lemma step_session_lookup (σ : storage) (t : tx) (id : N) (ss : Session) :
  Inv σ -> _sessions σ !! id = Some ss ->
  exists st',
    _sessions (step σ t) !! id = Some (with_state st' ss) /\
    (st' = state ss \/ (state ss = Active /\ st' = Closed) \/
     (state ss = Closed /\ st' = Revealed)).
Proof.
  intros HI Hss.
  assert (Hsame : _sessions σ !! id = Some (with_state (state ss) ss) /\
    (state ss = state ss \/ (state ss = Active /\ state ss = Closed) \/
     (state ss = Closed /\ state ss = Revealed))).
  { rewrite with_state_id. split; [done|by left]. }
  destruct (step_cases σ t) as [-> | H]; [by exists (state ss)|].
  destruct H; try by exists (state ss).
  - exists (state ss). simpl. rewrite lookup_insert_ne; [done|].
    intros <-. apply (inv_fresh σ HI) in Hss. lia.
  - exists (state ss). by rewrite sessions_submit_post.
  - simpl. rewrite lookup_insert. case_decide; [|by exists (state ss)].
    simplify_eq. rewrite (session_at_lookup _ _ _ Hss) in *.
    exists Closed. split; [done|]. right; left. done.
  - simpl. rewrite lookup_insert. case_decide; [|by exists (state ss)].
    simplify_eq. rewrite (session_at_lookup _ _ _ Hss) in *.
    exists Revealed. split; [done|]. right; right. done.
Qed.

Lemma steps_session_lookup (σ : storage) (ts : list tx) (id : N)
    (ss : Session) :
  Inv σ -> _sessions σ !! id = Some ss ->
  exists st',
    _sessions (steps σ ts) !! id = Some (with_state st' ss) /\
    state_code (state ss) <= state_code st'.
Proof.
  revert σ ss. induction ts as [|t ts IH]; intros σ ss HI Hss.
  - exists (state ss). rewrite with_state_id. split; [done|lia].
  - simpl. destruct (step_session_lookup σ t id ss HI Hss) as (st1 & H1 & Hst).
    destruct (IH _ _ (step_Inv σ t HI) H1) as (st2 & H2 & Hle).
    exists st2. split; [by destruct ss|].
    simpl in Hle. destruct Hst as [-> | [[-> ->] | [-> ->]]]; simpl in *; lia.
Qed.

(** An existing session keeps its organizer, deadline, setup count and
    names across any transactions. *)
Lemma steps_session_at (σ : storage) (ts : list tx) (id : N) :
  Inv σ -> exists_session σ id ->
  exists st',
    session_at (steps σ ts) id = with_state st' (session_at σ id) /\
    state_code (state (session_at σ id)) <= state_code st'.
Proof.
  intros HI Hex.
  destruct (exists_session_lookup σ id Hex) as (ss & Hss & ->).
  destruct (steps_session_lookup σ ts id ss HI Hss) as (st' & H & Hle).
  exists st'. by rewrite (session_at_lookup _ _ _ H).
Qed.

Lemma steps_exists_session (σ : storage) (ts : list tx) (id : N) :
  Inv σ -> exists_session σ id -> exists_session (steps σ ts) id.
Proof.
  intros HI Hex. destruct (steps_session_at σ ts id HI Hex) as (st' & H & _).
  unfold exists_session. by rewrite H.
Qed.

(** A submitted ballot is never overwritten. *)
Lemma step_vote (σ : storage) (t : tx) (s i : N) (v : address) :
  submitted (vote_at σ s i v) = true ->
  vote_at (step σ t) s i v = vote_at σ s i v.
Proof.
  intros Hsub. destruct (step_cases σ t) as [-> | H]; [done|].
  destruct H; try done.
  rewrite vote_at_submit_post. case_decide; [|done]. simplify_eq. congruence.
Qed.

Lemma steps_vote (σ : storage) (ts : list tx) (s i : N) (v : address) :
  submitted (vote_at σ s i v) = true ->
  vote_at (steps σ ts) s i v = vote_at σ s i v.
Proof.
  revert σ. induction ts as [|t ts IH]; intros σ Hsub; [done|].
  simpl. rewrite IH; rewrite step_vote; done.
Qed.

(** The requested flag is never cleared. *)
Lemma step_requested (σ : storage) (t : tx) (s : N) :
  requested_at σ s = true -> requested_at (step σ t) s = true.
Proof.
  intros Hreq. destruct (step_cases σ t) as [-> | H]; [done|].
  destruct H; try done.
  - by rewrite requested_at_submit_post.
  - unfold request_post. rewrite requested_at_set_requested. by case_decide.
Qed.

Lemma steps_requested (σ : storage) (ts : list tx) (s : N) :
  requested_at σ s = true -> requested_at (steps σ ts) s = true.
Proof.
  revert σ. induction ts as [|t ts IH]; intros σ Hreq; [done|].
  simpl. by apply IH, step_requested.
Qed.

(** The session counter never decreases. *)
Lemma step_sessionCounter (σ : storage) (t : tx) :
  _sessionCounter σ <= _sessionCounter (step σ t).
Proof.
  destruct (step_cases σ t) as [-> | H]; [done|].
  destruct H; try done.
  - simpl. lia.
  - by rewrite sessionCounter_submit_post.
Qed.

Lemma steps_sessionCounter (σ : storage) (ts : list tx) :
  _sessionCounter σ <= _sessionCounter (steps σ ts).
Proof.
  revert σ. induction ts as [|t ts IH]; intros σ; [done|].
  simpl. etrans; [apply step_sessionCounter|apply IH].
Qed.

(** Decide every guard of a call. *)
Local Ltac guards :=
  unfold exists_session, sessionExists, onlyOrganizer, onlyActiveSession,
    onlyClosedSession, require in *;
  simpl; repeat (case_bool_decide; simpl); try done.

(** * The claims *)

(** ** C5: the session state machine *)

(** C5.  In every reachable storage an existing session is never in Draft;
    a transaction leaves its state unchanged or moves it from Active to
    Closed or from Closed to Revealed, so over any sequence of transactions
    the state never goes back; [closeSession] succeeds only from Active and
    [revealEquipment] only from Closed, and in any other state they fail. *)
Theorem C5_state_moves_forward (σ : storage) (id : N) :
  reachable σ -> exists_session σ id ->
  state (session_at σ id) <> Draft /\
  (forall t,
     let st := state (session_at σ id) in
     let st' := state (session_at (step σ t) id) in
     st' = st \/ (st = Active /\ st' = Closed) \/
     (st = Closed /\ st' = Revealed)) /\
  (forall ts,
     state_code (state (session_at σ id))
     <= state_code (state (session_at (steps σ ts) id))) /\
  (forall c σ',
     closeSession c id σ = Ok σ' ->
     state (session_at σ id) = Active /\ state (session_at σ' id) = Closed) /\
  (forall c σ',
     revealEquipment c id σ = Ok σ' ->
     state (session_at σ id) = Closed /\
     state (session_at σ' id) = Revealed) /\
  (forall c,
     state (session_at σ id) <> Active ->
     closeSession c id σ = Err NotOrganizer \/
     closeSession c id σ = Err SessionNotActive) /\
  (forall c,
     state (session_at σ id) <> Closed ->
     revealEquipment c id σ = Err NotOrganizer \/
     revealEquipment c id σ = Err MustBeClosedFirst).
Proof.
  intros Hreach Hex. pose proof (reachable_Inv σ Hreach) as HI.
  destruct (exists_session_lookup σ id Hex) as (ss & Hss & Hat).
  repeat split.
  - rewrite Hat. by destruct (inv_wf σ HI id ss Hss).
  - intros t st st'. subst st st'.
    destruct (step_session_lookup σ t id ss HI Hss) as (st1 & H1 & Hst).
    rewrite (session_at_lookup _ _ _ H1), Hat. simpl. done.
  - intros ts. destruct (steps_session_at σ ts id HI Hex) as (st1 & -> & Hle).
    done.
  - by apply closeSession_Ok in H as (_ & _ & ? & _).
  - apply closeSession_Ok in H as (_ & _ & _ & ->).
    rewrite session_at_set_session, decide_True by done. done.
  - by apply revealEquipment_Ok in H as (_ & _ & ? & _).
  - apply revealEquipment_Ok in H as (_ & _ & _ & ->).
    rewrite session_at_set_session, decide_True by done. done.
  - intros c Hst. unfold closeSession. guards; tauto.
  - intros c Hst. unfold revealEquipment. guards; tauto.
Qed.

Lemma C5_witness :
  reachable s_closed /\ exists_session s_closed 0 /\
  state (session_at s_closed 0) <> Draft /\
  (forall ts, 2 <= state_code (state (session_at (steps s_closed ts) 0))) /\
  (forall c, closeSession c 0 s_closed = Err NotOrganizer \/
             closeSession c 0 s_closed = Err SessionNotActive).
Proof.
  assert (Hr : reachable s_closed) by (eexists; reflexivity).
  assert (He : exists_session s_closed 0) by (vm_compute; discriminate).
  destruct (C5_state_moves_forward s_closed 0 Hr He)
    as (H1 & _ & H3 & _ & _ & H6 & _).
  split; [exact Hr|]. split; [exact He|]. split; [exact H1|]. split.
  - intros ts. exact (H3 ts).
  - intros c. apply H6. vm_compute. discriminate.
Defined.

(** ** C6: the deadline gates submission, not closure *)



(** ** C7: session creation *)

(** C7.  In a reachable storage whose session counter is below [2^256 - 1]
    (where the checked [_sessionCounter++] cannot overflow), [createSession]
    succeeds exactly when the deadline is strictly after the block time, the
    setup count is between 2 and 10 and there are as many names as setups.
    A successful creation returns the current counter value as the id, no
    session was stored under that id before, the new session is Active, and
    any later successful creation returns a strictly larger id. *)
Theorem C7_create_session (σ : storage) (c : callctx) (ti de : string)
    (dl n : N) (names : list string) (tl : string) :
  reachable σ -> _sessionCounter σ < MAX_UINT256 ->
  (is_ok (createSession c ti de dl n names tl σ) = true <->
   block_timestamp c < dl /\ 2 <= n <= 10 /\
   N.of_nat (length names) = n) /\
  (forall id σ',
     createSession c ti de dl n names tl σ = Ok (id, σ') ->
     id = _sessionCounter σ /\
     _sessions σ !! id = None /\
     session_at σ' id = mkSession (msg_sender c) ti de dl Active n names tl /\
     state (session_at σ' id) = Active /\
     forall txs c2 ti2 de2 dl2 n2 names2 tl2 id2 σ2,
       createSession c2 ti2 de2 dl2 n2 names2 tl2 (steps σ' txs)
         = Ok (id2, σ2) ->
       id < id2).
Proof.
  intros Hreach Hctr. pose proof (reachable_Inv σ Hreach) as HI. split.
  - split.
    + destruct (createSession c ti de dl n names tl σ) as [[id σ']|e] eqn:H;
        [|discriminate].
      intros _. apply createSession_Ok in H. tauto.
    + intros (H1 & H2 & H3).
      rewrite (proj2 (createSession_Ok c ti de dl n names tl σ _ _)
                 (conj H1 (conj H2 (conj H3 (conj Hctr
                    (conj eq_refl eq_refl)))))).
      done.
  - intros id σ' H.
    apply createSession_Ok in H as (_ & _ & _ & _ & -> & ->).
    split; [done|]. split.
    { destruct (_sessions σ !! _sessionCounter σ) as [ss|] eqn:Hss; [|done].
      apply (inv_fresh σ HI) in Hss. lia. }
    rewrite session_at_set_session, decide_True by done.
    split; [done|]. split; [done|].
    intros txs c2 ti2 de2 dl2 n2 names2 tl2 id2 σ2 H2.
    apply createSession_Ok in H2 as (_ & _ & _ & _ & -> & _).
    eapply N.lt_le_trans; [|apply steps_sessionCounter]. simpl. lia.
Qed.

Lemma C7_witness :
  is_ok (createSession (mkCtx alice 1000) "S" "" 4600 3 ["A"; "B"; "C"] ""
           s_created) = true /\
  ~ is_ok (createSession (mkCtx alice 1000) "S" "" 1000 3 ["A"; "B"; "C"] ""
             s_created) = true.
Proof.
  assert (Hr : reachable s_created) by (eexists; reflexivity).
  assert (Hc : _sessionCounter s_created < MAX_UINT256)
    by (vm_compute; reflexivity).
  split.
  - apply (C7_create_session s_created _ _ _ _ _ _ _ Hr Hc).
    vm_compute. repeat split; discriminate.
  - intros H.
    apply (C7_create_session s_created _ _ _ _ _ _ _ Hr Hc) in H
      as (H & _). revert H. vm_compute. discriminate.
Defined.

(** The checked increment of the session counter: once [2^256 - 1]
    sessions have been created, a creation with valid arguments panics. *)
Lemma createSession_counter_exhausted (σ : storage) (c : callctx)
    (ti de : string) (dl n : N) (names : list string) (tl : string) :
  _sessionCounter σ = MAX_UINT256 ->
  block_timestamp c < dl -> 2 <= n <= 10 ->
  N.of_nat (length names) = n ->
  createSession c ti de dl n names tl σ = Err Overflow.
Proof.
  intros Hmax H1 [H2 H3] H4. unfold createSession.
  rewrite (require_true (_ <? _)) by by apply N.ltb_lt. simpl.
  rewrite (require_true (_ && _))
    by (apply andb_true_iff; split; by apply N.leb_le). simpl.
  rewrite (require_true (_ =? _)) by by apply N.eqb_eq. simpl.
  unfold checked_inc. rewrite Hmax, N.ltb_irrefl. done.
Qed.

(** ** C8: equipment names are gated by the Revealed state *)

(** C8.  After a session has been created by a real account (its sender is
    not the zero address) and any transactions have followed, a query of its
    equipment names by any caller fails with NotRevealed while the session is
    not Revealed, and returns exactly the list of names given at creation
    once it is Revealed. *)
Theorem C8_names_gated (σ : storage) (c : callctx) (ti de : string)
    (dl n : N) (names : list string) (tl : string) (id : N) (σ1 : storage)
    (txs : list tx) (c' : callctx) :
  reachable σ -> msg_sender c <> 0 ->
  createSession c ti de dl n names tl σ = Ok (id, σ1) ->
  (state (session_at (steps σ1 txs) id) <> Revealed ->
   getEquipmentNames c' id (steps σ1 txs) = Err NotRevealed) /\
  (state (session_at (steps σ1 txs) id) = Revealed ->
   getEquipmentNames c' id (steps σ1 txs) = Ok names).
Proof.
  intros Hreach Hsender Hcreate.
  pose proof (reachable_Inv σ Hreach) as HI.
  assert (Heff : effect σ c (CreateSession ti de dl n names tl) σ1).
  { apply createSession_Ok in Hcreate as (? & ? & ? & ? & -> & ->).
    by constructor. }
  pose proof (effect_Inv _ _ _ _ HI Heff) as HI1.
  apply createSession_Ok in Hcreate as (_ & _ & _ & _ & -> & Hσ1).
  assert (Hat : session_at σ1 (_sessionCounter σ) =
                mkSession (msg_sender c) ti de dl Active n names tl).
  { rewrite Hσ1, session_at_set_session, decide_True by done. done. }
  assert (Hex : exists_session σ1 (_sessionCounter σ)).
  { unfold exists_session. by rewrite Hat. }
  destruct (steps_session_at σ1 txs _ HI1 Hex) as (st' & Hs2 & _).
  rewrite Hat in Hs2. unfold getEquipmentNames, sessionExists, require.
  split; intros Hst; rewrite Hs2 in Hst |- *; simpl in Hst |- *.
  - rewrite (bool_decide_eq_false_2 _ Hsender). simpl.
    by rewrite (bool_decide_eq_false_2 _ Hst).
  - rewrite (bool_decide_eq_false_2 _ Hsender). simpl.
    by rewrite (bool_decide_eq_true_2 _ Hst).
Qed.

Lemma C8_witness :
  getEquipmentNames (mkCtx carol 2000) 0
    (steps s_created [tx_bob; tx_carol; tx_close]) = Err NotRevealed /\
  getEquipmentNames (mkCtx carol 2000) 0
    (steps s_created [tx_bob; tx_carol; tx_close; tx_request; tx_reveal])
    = Ok ["A"; "B"].
Proof.
  assert (Hr : reachable init) by (by exists []).
  assert (Hs : msg_sender (tx_ctx tx_create) <> 0)
    by (vm_compute; discriminate).
  assert (Hc : createSession (tx_ctx tx_create) "Cartridges" "Blind test"
                 4600 2 ["A"; "B"] "" init = Ok (0, s_created))
    by (vm_compute; reflexivity).
  split.
  - apply (C8_names_gated init _ _ _ _ _ _ _ _ _
             [tx_bob; tx_carol; tx_close] (mkCtx carol 2000) Hr Hs Hc).
    vm_compute. discriminate.
  - apply (C8_names_gated init _ _ _ _ _ _ _ _ _
             [tx_bob; tx_carol; tx_close; tx_request; tx_reveal]
             (mkCtx carol 2000) Hr Hs Hc).
    vm_compute. reflexivity.
Defined.

(** ** C9: unknown session ids *)

(** Every function guarded by [sessionExists] rejects an unknown id. *)
Lemma unknown_session_rejected (σ : storage) (c : callctx) (s i j : N)
    (v : address) (r : handle) (ts : Array5 handle) (p : inputProof) :
  ~ exists_session σ s ->
  submitVote c s i r ts p σ = Err SessionNotFound /\
  closeSession c s σ = Err SessionNotFound /\
  computeRankings c s σ = Err SessionNotFound /\
  requestOrganizerDecryption c s σ = Err SessionNotFound /\
  revealEquipment c s σ = Err SessionNotFound /\
  getUserVote c s i v σ = Err SessionNotFound /\
  getSession c s σ = Err SessionNotFound /\
  getEquipmentNames c s σ = Err SessionNotFound /\
  getVoteCount c s i σ = Err SessionNotFound /\
  isOrganizer c s v σ = Err SessionNotFound /\
  getSessionState c s σ = Err SessionNotFound /\
  isDecryptionRequested c s σ = Err SessionNotFound /\
  getSessionTotal c s i σ = Err SessionNotFound /\
  getTagTotal c s i j σ = Err SessionNotFound.
Proof.
  intros Hno. pose proof (sessionExists_Err σ s Hno) as H.
  unfold submitVote, closeSession, computeRankings,
    requestOrganizerDecryption, revealEquipment, getUserVote, getSession,
    getEquipmentNames, getVoteCount, isOrganizer, getSessionState,
    isDecryptionRequested, getSessionTotal, getTagTotal.
  rewrite H. done.
Qed.

(** C9.  [hasVoted] carries no [sessionExists] guard: on the freshly
    deployed contract, where no session exists and every guarded function
    fails with SessionNotFound, it returns [false] instead of failing. *)
Theorem C9_hasVoted_unknown_session :
  ~ exists_session init 7 /\
  getVoteCount (mkCtx bob 1000) 7 0 init = Err SessionNotFound /\
  hasVoted (mkCtx bob 1000) 7 0 bob init = Ok false.
Proof.
  split; [|split].
  - intros H. by apply H.
  - reflexivity.
  - reflexivity.
Qed.

(** ** C10: the aggregate-handle queries check their indices *)

(** C10.  For an existing session of a reachable storage, [getSessionTotal]
    and [getTagTotal] fail with InvalidSetupIndex when the setup index is not
    below the setup count, [getTagTotal] fails with InvalidTagIndex when the
    setup index is valid and the tag index is not below 5, and with valid
    indices and a vote count of zero both return the zero handle. *)
Theorem C10_aggregate_queries (σ : storage) (c : callctx) (s i j : N) :
  reachable σ -> exists_session σ s ->
  (numSetups (session_at σ s) <= i ->
   getSessionTotal c s i σ = Err InvalidSetupIndex /\
   getTagTotal c s i j σ = Err InvalidSetupIndex) /\
  (i < numSetups (session_at σ s) -> 5 <= j ->
   getTagTotal c s i j σ = Err InvalidTagIndex) /\
  (i < numSetups (session_at σ s) -> voteCount_at σ s i = 0 ->
   getSessionTotal c s i σ = Ok HNone /\
   (j < 5 -> getTagTotal c s i j σ = Ok HNone)).
Proof.
  intros Hreach Hex. pose proof (reachable_Inv σ Hreach) as HI.
  unfold getSessionTotal, getTagTotal.
  rewrite (proj2 (sessionExists_Ok _ _ tt) Hex). simpl.
  assert (Hdef : voteCount_at σ s i = 0 ->
            total_at σ s i = HNone /\ tagTotals_at σ s i = default_handles).
  { intros Hz. destruct (inv_shape σ HI s i) as (Hs & _).
    specialize (Hs Hz). unfold aggregate_handles, handles_of in Hs.
    destruct (tagTotals_at σ s i). unfold to_list5 in Hs. simpl in Hs.
    by simplify_eq. }
  split; [|split].
  - intros Hi. rewrite require_false by by apply N.ltb_ge. done.
  - intros Hi Hj. rewrite (require_true (i <? _)) by by apply N.ltb_lt.
    simpl. rewrite require_false by by apply N.ltb_ge. done.
  - intros Hi Hz. destruct (Hdef Hz) as [-> ->].
    rewrite (require_true (i <? _)) by by apply N.ltb_lt. simpl.
    split; [done|]. intros Hj.
    rewrite (require_true (j <? _)) by by apply N.ltb_lt. simpl.
    assert (j = 0 \/ j = 1 \/ j = 2 \/ j = 3 \/ j = 4) as Hcases by lia.
    by destruct Hcases as [-> | [-> | [-> | [-> | ->]]]].
Qed.

Lemma C10_witness :
  getSessionTotal (mkCtx carol 2000) 0 2 s_voted = Err InvalidSetupIndex /\
  getTagTotal (mkCtx carol 2000) 0 1 5 s_voted = Err InvalidTagIndex /\
  getSessionTotal (mkCtx carol 2000) 0 1 s_voted = Ok HNone /\
  getTagTotal (mkCtx carol 2000) 0 1 4 s_voted = Ok HNone.
Proof.
  assert (Hr : reachable s_voted) by (eexists; reflexivity).
  assert (He : exists_session s_voted 0) by (vm_compute; discriminate).
  destruct (C10_aggregate_queries s_voted (mkCtx carol 2000) 0 2 0 Hr He)
    as (H1 & _ & _).
  destruct (C10_aggregate_queries s_voted (mkCtx carol 2000) 0 1 5 Hr He)
    as (_ & H2 & _).
  destruct (C10_aggregate_queries s_voted (mkCtx carol 2000) 0 1 4 Hr He)
    as (_ & _ & H3).
  split; [|split; [|split]].
  - apply H1. vm_compute. discriminate.
  - apply H2; vm_compute; [reflexivity|discriminate].
  - apply H3; vm_compute; reflexivity.
  - apply H3; vm_compute; reflexivity.
Defined.

(** ** C3: the one-shot decryption grant *)

Lemma failed_step (σ : storage) (t : tx) :
  is_ok (run t σ) = false -> step σ t = σ.
Proof. unfold step. by destruct (run t σ). Qed.

(** C3 (amended).  In a reachable storage [requestOrganizerDecryption]
    succeeds exactly
    when the session exists, the caller is its organizer, its state is Closed
    and the requested flag is not set.  On success the flag is set, the
    organizer is allowed on each of the six aggregate handles of every setup
    with a positive vote count, every new grant is such a grant to the
    organizer or to the contract itself, and nothing else in storage
    changes.  After that, whatever transactions follow, no call for the same
    session succeeds again and a further call leaves the storage (grants
    included) as it was.  The error of such a call follows the order of the
    checks: NotOrganizer for a caller other than the organizer, NotClosed for
    the organizer once the session is no longer Closed, and AlreadyRequested
    for the organizer while the session is still Closed. *)
Theorem C3_request_decryption (σ : storage) (c : callctx) (s : N) :
  reachable σ ->
  (is_ok (requestOrganizerDecryption c s σ) = true <->
   exists_session σ s /\ organizer (session_at σ s) = msg_sender c /\
   state (session_at σ s) = Closed /\ requested_at σ s = false) /\
  (forall σ',
     requestOrganizerDecryption c s σ = Ok σ' ->
     requested_at σ' s = true /\
     (forall i h,
        i < numSetups (session_at σ s) -> 0 < voteCount_at σ s i ->
        h ∈ aggregate_handles σ s i ->
        isAllowed h (User (organizer (session_at σ s))) (acl σ') = true) /\
     (forall i, length (aggregate_handles σ s i) = 6%nat) /\
     (forall h p,
        (h, p) ∈ acl σ' ->
        (h, p) ∈ acl σ \/
        exists i, i < numSetups (session_at σ s) /\ 0 < voteCount_at σ s i /\
          h ∈ aggregate_handles σ s i /\
          (p = User (organizer (session_at σ s)) \/ p = Contract)) /\
     (forall h p, (h, p) ∈ acl σ -> (h, p) ∈ acl σ') /\
     (_sessionCounter σ' = _sessionCounter σ /\ _sessions σ' = _sessions σ /\
      _votes σ' = _votes σ /\ _sessionTotals σ' = _sessionTotals σ /\
      _tagTotals σ' = _tagTotals σ /\ _voteCounts σ' = _voteCounts σ /\
      forall s', s' <> s -> requested_at σ' s' = requested_at σ s') /\
     (forall txs c',
        is_ok (requestOrganizerDecryption c' s (steps σ' txs)) = false /\
        step (steps σ' txs) (mkTx c' (RequestOrganizerDecryption s))
          = steps σ' txs /\
        (msg_sender c' = organizer (session_at (steps σ' txs) s) ->
         state (session_at (steps σ' txs) s) = Closed ->
         requestOrganizerDecryption c' s (steps σ' txs)
           = Err AlreadyRequested) /\
        (msg_sender c' = organizer (session_at (steps σ' txs) s) ->
         state (session_at (steps σ' txs) s) <> Closed ->
         requestOrganizerDecryption c' s (steps σ' txs) = Err NotClosed) /\
        (msg_sender c' <> organizer (session_at (steps σ' txs) s) ->
         requestOrganizerDecryption c' s (steps σ' txs)
           = Err NotOrganizer))).
Proof.
  intros Hreach. pose proof (reachable_Inv σ Hreach) as HI. split.
  - split.
    + destruct (requestOrganizerDecryption c s σ) as [σ'|e] eqn:H;
        [|discriminate].
      intros _. apply requestOrganizerDecryption_Ok in H. tauto.
    + intros (H1 & H2 & H3 & H4).
      by rewrite (proj2 (requestOrganizerDecryption_Ok c s σ _)
                    (conj H1 (conj H2 (conj H3 (conj H4 eq_refl))))).
  - intros σ' H.
    pose proof (proj1 (run_Ok_effect
      (mkTx c (RequestOrganizerDecryption s)) σ σ') H) as Heff.
    pose proof (effect_Inv _ _ _ _ HI Heff) as HI'.
    apply requestOrganizerDecryption_Ok in H as (Hex & Horg & Hst & Hreq & ->).
    assert (Hset : requested_at (request_post (msg_sender c) s σ) s = true).
    { unfold request_post.
      by rewrite requested_at_set_requested, decide_True. }
    split; [done|]. split; [|split; [|split; [|split; [|split]]]].
    + intros i h Hi Hpos Hin. apply bool_decide_eq_true.
      apply acl_request_post. right. exists i. rewrite Horg. tauto.
    + done.
    + intros h p Hin. apply acl_request_post in Hin. by rewrite Horg.
    + intros h p Hin. apply acl_request_post. by left.
    + repeat split; try done. intros s' Hne. unfold request_post.
      by rewrite requested_at_set_requested, decide_False.
    + intros txs c'.
      pose proof (steps_requested _ txs s Hset) as Hreq2.
      assert (Hfail : is_ok (requestOrganizerDecryption c' s
                (steps (request_post (msg_sender c) s σ) txs)) = false).
      { destruct (requestOrganizerDecryption c' s _) as [σ3|e] eqn:H3;
          [|done].
        apply requestOrganizerDecryption_Ok in H3 as (_ & _ & _ & H3 & _).
        congruence. }
      split; [done|]. split; [by apply failed_step|].
      assert (Hex2 : exists_session
                (steps (request_post (msg_sender c) s σ) txs) s).
      { apply steps_exists_session; [done|].
        unfold exists_session, request_post. exact Hex. }
      split; [|split].
      * intros Ho Hcl.
        unfold requestOrganizerDecryption. rewrite Hreq2. guards.
      * intros Ho Hncl.
        unfold requestOrganizerDecryption, onlyOrganizer, onlyClosedSession,
          sessionExists, require.
        rewrite (bool_decide_eq_false_2 _ Hex2). simpl.
        rewrite (bool_decide_eq_true_2 _ (eq_sym Ho)). simpl.
        by rewrite (bool_decide_eq_false_2 _ Hncl).
      * intros Hno.
        unfold requestOrganizerDecryption, onlyOrganizer, sessionExists,
          require.
        rewrite (bool_decide_eq_false_2 _ Hex2). simpl.
        rewrite bool_decide_eq_false_2; [done|]. congruence.
Qed.

Lemma C3_witness :
  requested_at s_requested 0 = true /\
  isAllowed (HAdd bob_rating carol_rating)
    (User (organizer (session_at s_closed 0))) (acl s_requested) = true /\
  requestOrganizerDecryption (mkCtx alice 1600) 0 (steps s_requested [])
    = Err AlreadyRequested.
Proof.
  assert (Hr : reachable s_closed) by (eexists; reflexivity).
  assert (Hok : requestOrganizerDecryption (tx_ctx tx_request) 0 s_closed
                = Ok s_requested) by (vm_compute; reflexivity).
  destruct (C3_request_decryption s_closed (tx_ctx tx_request) 0 Hr)
    as (_ & H).
  destruct (H s_requested Hok) as (H1 & H2 & _ & _ & _ & _ & H7).
  split; [exact H1|]. split.
  - apply (H2 0); vm_compute; [reflexivity|reflexivity|].
    apply list_elem_of_here.
  - destruct (H7 [] (mkCtx alice 1600)) as (_ & _ & H8 & _).
    apply H8; vm_compute; reflexivity.
Defined.

(** The claim as stated fails: after the organizer's request has succeeded
    and the session has been revealed, the organizer's second request fails
    with NotClosed, not with AlreadyRequested, because the Closed check comes
    before the check of the requested flag. *)
Lemma C3_counterexample :
  requestOrganizerDecryption (tx_ctx tx_request) 0 s_closed = Ok s_requested /\
  steps s_requested [tx_reveal] = s_revealed /\
  msg_sender (mkCtx alice 1600) = organizer (session_at s_revealed 0) /\
  requestOrganizerDecryption (mkCtx alice 1600) 0 s_revealed
    = Err NotClosed /\
  NotClosed <> AlreadyRequested.
Proof.
  split; [vm_compute; reflexivity|].
  split; [vm_compute; reflexivity|].
  split; [vm_compute; reflexivity|].
  split; [vm_compute; reflexivity|].
  discriminate.
Qed.

(** The organizer and Closed guards come before the requested flag: once
    the session is Revealed a further request fails with NotClosed. *)
Example request_after_reveal :
  requestOrganizerDecryption (mkCtx alice 1600) 0 s_revealed = Err NotClosed.
Proof. vm_compute. reflexivity. Qed.

(** ** C4: one ballot per voter and setup *)

(** C4 (amended).  After a voter's [submitVote] for a setup has succeeded in
    a reachable storage, and whatever transactions follow, no further
    [submitVote] by that voter for that setup succeeds, with any ciphertexts
    and proof; the failed attempt leaves the whole storage as it was, and the
    stored ballot is still the first one, with its submitted flag set.  The
    error of the attempt follows the order of the checks: SessionNotActive
    once the session is no longer Active, DeadlinePassed on an Active session
    after its deadline, and DuplicateVote while the session is still Active
    and the deadline has not passed. *)
Theorem C4_single_vote (σ : storage) (c : callctx) (s i : N) (r : handle)
    (ts : Array5 handle) (p : inputProof) (σ1 : storage) :
  reachable σ ->
  submitVote c s i r ts p σ = Ok σ1 ->
  vote_at σ1 s i (msg_sender c) = mkVote r ts true /\
  voteCount_at σ1 s i = voteCount_at σ s i + 1 /\
  forall txs c' r' ts' p',
    msg_sender c' = msg_sender c ->
    is_ok (submitVote c' s i r' ts' p' (steps σ1 txs)) = false /\
    (state (session_at (steps σ1 txs) s) = Active ->
     block_timestamp c' <= deadline (session_at (steps σ1 txs) s) ->
     submitVote c' s i r' ts' p' (steps σ1 txs) = Err DuplicateVote) /\
    step (steps σ1 txs) (mkTx c' (SubmitVote s i r' ts' p')) = steps σ1 txs /\
    vote_at (steps σ1 txs) s i (msg_sender c) = mkVote r ts true /\
    (state (session_at (steps σ1 txs) s) <> Active ->
     submitVote c' s i r' ts' p' (steps σ1 txs) = Err SessionNotActive) /\
    (state (session_at (steps σ1 txs) s) = Active ->
     deadline (session_at (steps σ1 txs) s) < block_timestamp c' ->
     submitVote c' s i r' ts' p' (steps σ1 txs) = Err DeadlinePassed).
Proof.
  intros Hreach H. pose proof (reachable_Inv σ Hreach) as HI.
  pose proof (proj1 (run_Ok_effect (mkTx c (SubmitVote s i r ts p)) σ σ1) H)
    as Heff.
  pose proof (effect_Inv _ _ _ _ HI Heff) as HI1.
  apply submitVote_Ok in H as (Hex & Hst & Htime & Hi & _ & _ & _ & _ & ->).
  assert (Hv : vote_at (submit_post (msg_sender c) s i r ts σ) s i
                 (msg_sender c) = mkVote r ts true).
  { by rewrite vote_at_submit_post, decide_True. }
  split; [done|]. split.
  { by rewrite voteCount_at_submit_post, decide_True. }
  intros txs c' r' ts' p' Hsame.
  assert (Hv2 : vote_at (steps (submit_post (msg_sender c) s i r ts σ) txs)
                  s i (msg_sender c) = mkVote r ts true).
  { rewrite steps_vote; [done|]. by rewrite Hv. }
  assert (Hfail : is_ok (submitVote c' s i r' ts' p'
            (steps (submit_post (msg_sender c) s i r ts σ) txs)) = false).
  { destruct (submitVote c' s i r' ts' p' _) as [σ3|e] eqn:H3; [|done].
    apply submitVote_Ok in H3 as (_ & _ & _ & _ & H3 & _).
    rewrite Hsame, Hv2 in H3. discriminate. }
  assert (Hex1 : exists_session (submit_post (msg_sender c) s i r ts σ) s).
  { unfold exists_session. by rewrite session_at_submit_post. }
  destruct (steps_session_at _ txs s HI1 Hex1) as (st' & Hs2 & _).
  rewrite session_at_submit_post in Hs2.
  split; [done|].
  split; [|split; [by apply failed_step|split; [done|split]]].
  - intros Hact Hdl.
    unfold submitVote, onlyActiveSession, sessionExists, require.
    rewrite Hsame, Hv2. rewrite Hs2 in Hact, Hdl |- *.
    simpl in Hact, Hdl |- *.
    rewrite (bool_decide_eq_false_2 _ Hex). simpl.
    rewrite (bool_decide_eq_true_2 _ Hact). simpl.
    rewrite (proj2 (N.leb_le _ _) Hdl). simpl.
    rewrite (proj2 (N.ltb_lt _ _) Hi). simpl. done.
  - intros Hna.
    unfold submitVote, onlyActiveSession, sessionExists, require.
    rewrite Hs2 in Hna |- *. simpl in Hna |- *.
    rewrite (bool_decide_eq_false_2 _ Hex). simpl.
    by rewrite (bool_decide_eq_false_2 _ Hna).
  - intros Hact Hlate.
    unfold submitVote, onlyActiveSession, sessionExists, require.
    rewrite Hs2 in Hact, Hlate |- *. simpl in Hact, Hlate |- *.
    rewrite (bool_decide_eq_false_2 _ Hex). simpl.
    rewrite (bool_decide_eq_true_2 _ Hact). simpl.
    destruct (N.leb_spec (block_timestamp c') (deadline (session_at σ s)));
      [lia|done].
Qed.

Lemma C4_witness :
  submitVote (mkCtx bob 1250) 0 0 carol_rating carol_tags carol_proof
    (steps (steps s_created [tx_bob]) [tx_carol]) = Err DuplicateVote /\
  vote_at (steps (steps s_created [tx_bob]) [tx_carol]) 0 0
    (msg_sender (tx_ctx tx_bob)) = mkVote bob_rating bob_tags true.
Proof.
  assert (Hr : reachable s_created) by (eexists; reflexivity).
  assert (Hok : submitVote (tx_ctx tx_bob) 0 0 bob_rating bob_tags bob_proof
                  s_created = Ok (steps s_created [tx_bob]))
    by (vm_compute; reflexivity).
  destruct (C4_single_vote s_created (tx_ctx tx_bob) 0 0 bob_rating bob_tags
              bob_proof (steps s_created [tx_bob]) Hr Hok)
    as (_ & _ & H).
  destruct (H [tx_carol] (mkCtx bob 1250) carol_rating carol_tags carol_proof
              eq_refl) as (_ & H2 & _ & H4 & _).
  split.
  - apply H2; vm_compute; [reflexivity|discriminate].
  - exact H4.
Defined.

(** The claim as stated fails: after the voter's first ballot has been
    accepted, a second attempt for the same setup made after the deadline of
    the still Active session fails with DeadlinePassed, and one made after the
    organizer has closed the session fails with SessionNotActive, not with
    DuplicateVote, because both checks come before the duplicate check. *)
Lemma C4_counterexample :
  submitVote (tx_ctx tx_bob) 0 0 bob_rating bob_tags bob_proof s_created
    = Ok (steps s_created [tx_bob]) /\
  state (session_at (steps s_created [tx_bob]) 0) = Active /\
  submitVote (mkCtx bob 5000) 0 0 carol_rating carol_tags carol_proof
    (steps s_created [tx_bob]) = Err DeadlinePassed /\
  submitVote (mkCtx bob 1350) 0 0 carol_rating carol_tags carol_proof
    (steps (steps s_created [tx_bob]) [tx_close]) = Err SessionNotActive /\
  DeadlinePassed <> DuplicateVote /\ SessionNotActive <> DuplicateVote.
Proof.
  split; [vm_compute; reflexivity|].
  split; [vm_compute; reflexivity|].
  split; [vm_compute; reflexivity|].
  split; [vm_compute; reflexivity|].
  split; discriminate.
Qed.

(** The Active guard comes before the duplicate check: once the session
    is Closed a second attempt fails with SessionNotActive. *)
Example duplicate_after_close :
  submitVote (mkCtx bob 1350) 0 0 bob_rating bob_tags bob_proof s_closed
    = Err SessionNotActive.
Proof. vm_compute. reflexivity. Qed.

(** ** C2: who holds capability on a ballot's ciphertexts *)

Lemma submitted_lookup (σ : storage) (s i : N) (v : address) :
  submitted (vote_at σ s i v) = true ->
  _votes σ !! (s, i, v) = Some (vote_at σ s i v).
Proof.
  unfold vote_at. by destruct (_votes σ !! (s, i, v)).
Qed.




(** ** C1: the aggregate of a setup *)

Lemma accepted_cases (σ : storage) (t : tx) (s i : N) :
  (accepted s i σ t = [] /\
   voteCount_at (step σ t) s i = voteCount_at σ s i /\
   total_at (step σ t) s i = total_at σ s i /\
   tagTotals_at (step σ t) s i = tagTotals_at σ s i) \/
  (exists c r ts p,
     t = mkTx c (SubmitVote s i r ts p) /\
     accepted s i σ t = [(r, ts)] /\
     attested (msg_sender c) p r = true /\
     all5 (attested (msg_sender c) p) ts = true /\
     step σ t = submit_post (msg_sender c) s i r ts σ).
Proof.
  destruct t as [c cl]. unfold accepted, step. simpl.
  destruct (run (mkTx c cl) σ) as [σ'|e] eqn:Hrun.
  - apply run_Ok_effect in Hrun. simpl in Hrun.
    destruct Hrun; try (left; done).
    simpl. destruct (decide (s0 = s)) as [-> | Hs];
      [destruct (decide (i0 = i)) as [-> | Hi]|].
    + right. exists c, r, ts, p.
      rewrite !bool_decide_eq_true_2 by done. done.
    + left. rewrite (bool_decide_eq_false_2 (i0 = i)) by done.
      rewrite andb_false_r. simpl.
      rewrite voteCount_at_submit_post, total_at_submit_post,
        tagTotals_at_submit_post.
      rewrite !decide_False by congruence. done.
    + left. rewrite (bool_decide_eq_false_2 (s0 = s)) by done. simpl.
      rewrite voteCount_at_submit_post, total_at_submit_post,
        tagTotals_at_submit_post.
      rewrite !decide_False by congruence. done.
  - left. split; [|done]. destruct cl; try done.
    by rewrite andb_false_r.
Qed.

Lemma Nsum_app (l1 l2 : list N) : Nsum (l1 ++ l2) = Nsum l1 + Nsum l2.
Proof.
  unfold Nsum. induction l1 as [|x l1 IH]; simpl; [done|]. rewrite IH. lia.
Qed.

Lemma Nsum_Permutation (l1 l2 : list N) :
  l1 ≡ₚ l2 -> Nsum l1 = Nsum l2.
Proof.
  unfold Nsum. induction 1; simpl; lia.
Qed.

Lemma cleartexts_app (w : N) (l1 l2 : list handle) :
  cleartexts w (l1 ++ l2) = cleartexts w l1 ++ cleartexts w l2.
Proof. unfold cleartexts. apply omap_app. Qed.

Lemma ratings_of_app (l1 l2 : list ballot) :
  ratings_of (l1 ++ l2) = ratings_of l1 ++ ratings_of l2.
Proof. unfold ratings_of. by rewrite map_app, cleartexts_app. Qed.

Lemma tags_of_app (j : N) (l1 l2 : list ballot) :
  tags_of j (l1 ++ l2) = tags_of j l1 ++ tags_of j l2.
Proof. unfold tags_of. by rewrite map_app, cleartexts_app. Qed.

Lemma ratings_of_Permutation (l1 l2 : list ballot) :
  l1 ≡ₚ l2 -> ratings_of l1 ≡ₚ ratings_of l2.
Proof.
  intros H. unfold ratings_of, cleartexts.
  apply omap_Permutation. by apply Permutation_map.
Qed.

Lemma tags_of_Permutation (j : N) (l1 l2 : list ballot) :
  l1 ≡ₚ l2 -> tags_of j l1 ≡ₚ tags_of j l2.
Proof.
  intros H. unfold tags_of, cleartexts.
  apply omap_Permutation. by apply Permutation_map.
Qed.

Lemma get5_attested (u : address) (p : inputProof) (ts : Array5 handle)
    (j : N) :
  all5 (attested u p) ts = true -> j < 5 ->
  is_input_of u (get5 HNone ts j) = true.
Proof.
  intros Hall Hj. unfold all5 in Hall.
  repeat (apply andb_true_iff in Hall as [Hall ?]).
  assert (j = 0 \/ j = 1 \/ j = 2 \/ j = 3 \/ j = 4) as Hcases by lia.
  destruct Hcases as [-> | [-> | [-> | [-> | ->]]]]; simpl;
    by apply (attested_is_input_of u p).
Qed.

Lemma get5_zip5 (f : handle -> handle -> handle) (x y : Array5 handle)
    (j : N) :
  j < 5 -> get5 HNone (zip5 f x y) j = f (get5 HNone x j) (get5 HNone y j).
Proof.
  intros Hj.
  assert (j = 0 \/ j = 1 \/ j = 2 \/ j = 3 \/ j = 4) as Hcases by lia.
  by destruct Hcases as [-> | [-> | [-> | [-> | ->]]]].
Qed.

Lemma cleartexts_input (w : N) (u : address) (h : handle) :
  is_input_of u h = true ->
  exists x, decrypt w h = Some x /\ cleartexts w [h] = [x] /\
            x mod 2 ^ w = x.
Proof.
  destruct h as [|u' n v|]; simpl; try done. intros _.
  exists (v mod 2 ^ w). repeat split. apply N.Div0.mod_mod.
Qed.

Lemma Nsum_snoc (l : list N) (x : N) : Nsum (l ++ [x]) = Nsum l + x.
Proof. rewrite Nsum_app. unfold Nsum. simpl. lia. Qed.

Lemma folded_snoc (σ : storage) (u : address) (p : inputProof) (s i : N)
    (r : handle) (ts : Array5 handle) (bs : list ballot) :
  attested u p r = true -> all5 (attested u p) ts = true ->
  folded σ s i bs ->
  folded (submit_post u s i r ts σ) s i (bs ++ [(r, ts)]).
Proof.
  intros Hr Hts (Hcount & Hlen & Hlent & Hsum).
  destruct (cleartexts_input 16 u r (attested_is_input_of _ _ _ Hr))
    as (x & Hx & Hxs & Hxm).
  assert (Htag : forall j, j < 5 -> exists y,
            decrypt 8 (get5 HNone ts j) = Some y /\
            cleartexts 8 [get5 HNone ts j] = [y] /\ y mod 2 ^ 8 = y).
  { intros j Hj. eapply cleartexts_input. by eapply get5_attested. }
  assert (Hr1 : ratings_of (bs ++ [(r, ts)]) = ratings_of bs ++ [x]).
  { rewrite ratings_of_app. f_equal. exact Hxs. }
  assert (Ht1 : forall j y, cleartexts 8 [get5 HNone ts j] = [y] ->
            tags_of j (bs ++ [(r, ts)]) = tags_of j bs ++ [y]).
  { intros j y Hy. rewrite tags_of_app. f_equal. exact Hy. }
  split; [|split; [|split]].
  - rewrite voteCount_at_submit_post, decide_True by done.
    rewrite length_app. simpl. lia.
  - rewrite Hr1, !length_app, Hlen. done.
  - intros j Hj. destruct (Htag j Hj) as (y & _ & Hy & _).
    rewrite (Ht1 j y Hy), !length_app, (Hlent j Hj). done.
  - intros _. rewrite total_at_submit_post, tagTotals_at_submit_post.
    rewrite !decide_True by done.
    destruct (N.eqb_spec (voteCount_at σ s i) 0) as [Hz|Hnz].
    + assert (bs = []) as ->.
      { destruct bs; [done|]. simpl in Hcount. lia. }
      split.
      * rewrite Hr1, Hx. simpl. f_equal. unfold Nsum. simpl.
        rewrite N.add_0_r. by rewrite Hxm.
      * intros j Hj. destruct (Htag j Hj) as (y & Hy & Hys & Hym).
        rewrite (Ht1 j y Hys), Hy. simpl. f_equal. unfold Nsum. simpl.
        rewrite N.add_0_r. by rewrite Hym.
    + assert (Hne : bs <> []).
      { intros ->. simpl in Hcount. lia. }
      destruct (Hsum Hne) as [Htot Htags]. split.
      * unfold FHE_add. simpl. rewrite Htot, Hx, Hr1, Nsum_snoc.
        f_equal. apply N.Div0.add_mod_idemp_l.
      * intros j Hj. destruct (Htag j Hj) as (y & Hy & Hys & Hym).
        rewrite get5_zip5 by done. unfold FHE_add. simpl.
        rewrite (Htags j Hj), Hy, (Ht1 j y Hys), Nsum_snoc.
        f_equal. apply N.Div0.add_mod_idemp_l.
Qed.

Lemma folded_step (σ : storage) (t : tx) (s i : N) (bs : list ballot) :
  folded σ s i bs -> folded (step σ t) s i (bs ++ accepted s i σ t).
Proof.
  intros Hf.
  destruct (accepted_cases σ t s i)
    as [(-> & Hc & Htot & Htags)
       |(c & r & ts & p & -> & -> & Hr & Hts & ->)].
  - rewrite app_nil_r. unfold folded. rewrite Hc, Htot, Htags. exact Hf.
  - by eapply folded_snoc.
Qed.

Lemma folded_steps (σ : storage) (txs : list tx) (s i : N)
    (bs : list ballot) :
  folded σ s i bs -> folded (steps σ txs) s i (bs ++ history s i σ txs).
Proof.
  revert σ bs. induction txs as [|t txs IH]; intros σ bs Hf; simpl.
  - by rewrite app_nil_r.
  - rewrite app_assoc. apply IH. by apply folded_step.
Qed.

Lemma folded_init (s i : N) : folded init s i [].
Proof. repeat split; try done. Qed.

(** The claim as stated fails: when 256 voters have each set the first tag of
    setup 0, the counter is 256 and the submitted tag values sum to 256, but
    the 8-bit tag total has wrapped around and decrypts to 0. *)
Lemma C1_counterexample :
  length (history 0 0 init crowd_trace) = 256%nat /\
  voteCount_at (steps init crowd_trace) 0 0 = 256 /\
  Nsum (tags_of 0 (history 0 0 init crowd_trace)) = 256 /\
  decrypt 8 (get5 HNone (tagTotals_at (steps init crowd_trace) 0 0) 0)
    = Some 0 /\
  Some 0 <> Some (Nsum (tags_of 0 (history 0 0 init crowd_trace))).
Proof.
  assert (H : Nsum (tags_of 0 (history 0 0 init crowd_trace)) = 256)
    by (vm_compute; reflexivity).
  split; [vm_compute; reflexivity|].
  split; [vm_compute; reflexivity|].
  split; [exact H|].
  split; [vm_compute; reflexivity|].
  rewrite H. discriminate.
Qed.

Lemma unvoted_aggregate (σ : storage) (s i j : N) :
  reachable σ -> voteCount_at σ s i = 0 ->
  decrypt 16 (total_at σ s i) = None /\
  decrypt 8 (get5 HNone (tagTotals_at σ s i) j) = None.
Proof.
  intros Hreach Hz. destruct (inv_shape σ (reachable_Inv σ Hreach) s i)
    as (Hs & _).
  specialize (Hs Hz). unfold aggregate_handles, handles_of in Hs.
  destruct (tagTotals_at σ s i). unfold to_list5 in Hs. simpl in Hs.
  injection Hs as -> -> -> -> -> ->. split; [done|].
  unfold get5. by repeat case_match.
Qed.

(** C1 (amended).  After any sequence of transactions on the freshly
    deployed contract, let the ballots of a setup be those of the successful
    [submitVote] calls for it, in order.  The vote counter is their number
    [k]; each of them decrypts; if [k > 0] the rating total decrypts to the
    sum of their ratings modulo [2^16], and each of the five tag totals to
    the sum of their tag values modulo [2^8], which are the arithmetic sums
    whenever those stay below [2^16] and [2^8].  Two sequences of
    transactions whose ballots for the setup are permutations of each other
    give the same counter and the same decrypted totals. *)
Theorem C1_aggregate_sums (txs : list tx) (s i : N) :
  voteCount_at (steps init txs) s i
    = N.of_nat (length (history s i init txs)) /\
  length (ratings_of (history s i init txs))
    = length (history s i init txs) /\
  (forall j, j < 5 ->
     length (tags_of j (history s i init txs))
     = length (history s i init txs)) /\
  (history s i init txs <> [] ->
   decrypt 16 (total_at (steps init txs) s i)
     = Some (Nsum (ratings_of (history s i init txs)) mod 2 ^ 16) /\
   (Nsum (ratings_of (history s i init txs)) < 2 ^ 16 ->
    decrypt 16 (total_at (steps init txs) s i)
      = Some (Nsum (ratings_of (history s i init txs)))) /\
   forall j, j < 5 ->
     decrypt 8 (get5 HNone (tagTotals_at (steps init txs) s i) j)
       = Some (Nsum (tags_of j (history s i init txs)) mod 2 ^ 8) /\
     (Nsum (tags_of j (history s i init txs)) < 2 ^ 8 ->
      decrypt 8 (get5 HNone (tagTotals_at (steps init txs) s i) j)
        = Some (Nsum (tags_of j (history s i init txs))))) /\
  (forall txs',
     history s i init txs' ≡ₚ history s i init txs ->
     voteCount_at (steps init txs') s i = voteCount_at (steps init txs) s i /\
     decrypt 16 (total_at (steps init txs') s i)
       = decrypt 16 (total_at (steps init txs) s i) /\
     forall j, j < 5 ->
       decrypt 8 (get5 HNone (tagTotals_at (steps init txs') s i) j)
       = decrypt 8 (get5 HNone (tagTotals_at (steps init txs) s i) j)).
Proof.
  pose proof (folded_steps init txs s i [] (folded_init s i)) as Hf.
  simpl in Hf. destruct Hf as (Hc & Hl & Hlt & Hsum).
  split; [done|]. split; [done|]. split; [done|]. split.
  - intros Hne. destruct (Hsum Hne) as [Htot Htags].
    split; [done|]. split.
    + intros Hlt16. by rewrite Htot, N.mod_small.
    + intros j Hj. split; [by apply Htags|].
      intros Hlt8. by rewrite (Htags j Hj), N.mod_small.
  - intros txs' Hperm.
    pose proof (folded_steps init txs' s i [] (folded_init s i)) as Hf'.
    simpl in Hf'. destruct Hf' as (Hc' & _ & _ & Hsum').
    assert (Hlen : length (history s i init txs')
                   = length (history s i init txs))
      by by apply Permutation_length.
    split; [by rewrite Hc, Hc', Hlen|].
    destruct (history s i init txs) as [|b bs] eqn:Hh.
    + apply Permutation_nil_r in Hperm. rewrite Hperm in Hc'.
      simpl in Hc, Hc'.
      assert (Hr : reachable (steps init txs)) by by exists txs.
      assert (Hr' : reachable (steps init txs')) by by exists txs'.
      split.
      * destruct (unvoted_aggregate _ s i 0 Hr Hc) as [-> _].
        by destruct (unvoted_aggregate _ s i 0 Hr' Hc') as [-> _].
      * intros j _.
        destruct (unvoted_aggregate _ s i j Hr Hc) as [_ ->].
        by destruct (unvoted_aggregate _ s i j Hr' Hc') as [_ ->].
    + assert (Hne : b :: bs <> []) by done.
      assert (Hne' : history s i init txs' <> []).
      { intros Hnil. rewrite Hnil in Hlen. done. }
      destruct (Hsum Hne) as [Htot Htags].
      destruct (Hsum' Hne') as [Htot' Htags'].
      split.
      * rewrite Htot, Htot'.
        by rewrite (Nsum_Permutation _ _ (ratings_of_Permutation _ _ Hperm)).
      * intros j Hj. rewrite (Htags j Hj), (Htags' j Hj).
        by rewrite (Nsum_Permutation _ _ (tags_of_Permutation j _ _ Hperm)).
Qed.

Lemma C1_witness :
  voteCount_at (steps init [tx_create; tx_bob; tx_carol]) 0 0 = 2 /\
  decrypt 16 (total_at (steps init [tx_create; tx_bob; tx_carol]) 0 0)
    = Some 14 /\
  decrypt 16 (total_at (steps init [tx_create; tx_carol; tx_bob]) 0 0)
    = Some 14 /\
  decrypt 8 (get5 HNone
      (tagTotals_at (steps init [tx_create; tx_bob; tx_carol]) 0 0) 2)
    = Some 2.
Proof.
  pose proof (C1_aggregate_sums [tx_create; tx_bob; tx_carol] 0 0)
    as (Hc & _ & _ & Hsum & Hperm).
  assert (Hh : history 0 0 init [tx_create; tx_bob; tx_carol]
               = [(bob_rating, bob_tags); (carol_rating, carol_tags)])
    by (vm_compute; reflexivity).
  assert (Hh' : history 0 0 init [tx_create; tx_carol; tx_bob]
                = [(carol_rating, carol_tags); (bob_rating, bob_tags)])
    by (vm_compute; reflexivity).
  rewrite Hh in Hc, Hsum, Hperm.
  destruct Hsum as (_ & Htot & Htags); [done|].
  specialize (Htot eq_refl).
  destruct (Htags 2 eq_refl) as [_ Htag]. specialize (Htag eq_refl).
  destruct (Hperm [tx_create; tx_carol; tx_bob]) as (_ & Hp & _).
  { rewrite Hh'. apply Permutation_swap. }
  split; [exact Hc|]. split; [exact Htot|]. split; [|exact Htag].
  rewrite Hp. exact Htot.
Defined.

(** * Further properties of the contract *)

(** ** Reading one's own ballot *)

Lemma submitVote_effect (σ σ1 : storage) (c : callctx) (s i : N)
    (r : handle) (ts : Array5 handle) (p : inputProof) :
  submitVote c s i r ts p σ = Ok σ1 ->
  effect σ c (SubmitVote s i r ts p) σ1.
Proof.
  intros H.
  exact (proj1 (run_Ok_effect (mkTx c (SubmitVote s i r ts p)) σ σ1) H).
Qed.

Lemma submitted_ballot_persists (σ σ1 : storage) (c : callctx) (s i : N)
    (r : handle) (ts : Array5 handle) (p : inputProof) (txs : list tx) :
  Inv σ -> submitVote c s i r ts p σ = Ok σ1 ->
  Inv σ1 /\ exists_session (steps σ1 txs) s /\
  vote_at (steps σ1 txs) s i (msg_sender c) = mkVote r ts true.
Proof.
  intros HI H.
  pose proof (effect_Inv _ _ _ _ HI (submitVote_effect _ _ _ _ _ _ _ _ H))
    as HI1.
  apply submitVote_Ok in H as (Hex & _ & _ & _ & _ & _ & _ & _ & ->).
  split; [done|]. split.
  - apply steps_exists_session; [done|].
    unfold exists_session. by rewrite session_at_submit_post.
  - rewrite steps_vote; rewrite vote_at_submit_post, decide_True; done.
Qed.

(** X1.  [getUserVote] is self-service: on an existing session it fails with
    "Can only view own votes" for any caller other than the voter asked
    about, whether or not a ballot exists, and with "No vote found" when the
    caller asks about themselves before voting.  After a successful
    [submitVote], and whatever transactions follow, the voter reads back
    exactly the rating handle and the five tag handles they submitted. *)
Theorem X1_getUserVote (σ : storage) (c : callctx) (s i : N) :
  reachable σ -> exists_session σ s ->
  (forall u, msg_sender c <> u -> getUserVote c s i u σ = Err Forbidden) /\
  (submitted (vote_at σ s i (msg_sender c)) = false ->
   getUserVote c s i (msg_sender c) σ = Err NotFound) /\
  (forall r ts p σ1 txs now,
     submitVote c s i r ts p σ = Ok σ1 ->
     getUserVote (mkCtx (msg_sender c) now) s i (msg_sender c) (steps σ1 txs)
       = Ok (r, ts)).
Proof.
  intros Hreach Hex. pose proof (reachable_Inv σ Hreach) as HI.
  split; [|split].
  - intros u Hne. unfold getUserVote, sessionExists, require.
    rewrite (bool_decide_eq_false_2 _ Hex). simpl.
    by rewrite (bool_decide_eq_false_2 _ Hne).
  - intros Hno. unfold getUserVote, sessionExists, require.
    rewrite (bool_decide_eq_false_2 _ Hex). simpl.
    rewrite (bool_decide_eq_true_2 _ eq_refl). simpl. by rewrite Hno.
  - intros r ts p σ1 txs now H.
    destruct (submitted_ballot_persists σ σ1 c s i r ts p txs HI H)
      as (_ & Hex2 & Hv).
    unfold getUserVote, sessionExists, require. simpl.
    rewrite (bool_decide_eq_false_2 _ Hex2). simpl.
    rewrite (bool_decide_eq_true_2 _ eq_refl). simpl. by rewrite Hv.
Qed.

Lemma X1_witness :
  getUserVote (mkCtx carol 1250) 0 0 bob s_created = Err Forbidden /\
  getUserVote (mkCtx bob 1250) 0 0 bob s_created = Err NotFound /\
  getUserVote (mkCtx bob 1900) 0 0 bob
    (steps (steps s_created [tx_bob]) [tx_carol; tx_close])
    = Ok (bob_rating, bob_tags).
Proof.
  assert (Hr : reachable s_created) by (eexists; reflexivity).
  assert (He : exists_session s_created 0) by (vm_compute; discriminate).
  assert (Hok : submitVote (tx_ctx tx_bob) 0 0 bob_rating bob_tags bob_proof
                  s_created = Ok (steps s_created [tx_bob]))
    by (vm_compute; reflexivity).
  destruct (X1_getUserVote s_created (mkCtx carol 1250) 0 0 Hr He)
    as (H1 & _ & _).
  destruct (X1_getUserVote s_created (tx_ctx tx_bob) 0 0 Hr He)
    as (_ & H2 & H3).
  split; [|split].
  - apply H1. vm_compute. discriminate.
  - apply (X1_getUserVote s_created (mkCtx bob 1250) 0 0 Hr He).
    vm_compute. reflexivity.
  - exact (H3 _ _ _ _ [tx_carol; tx_close] 1900 Hok).
Defined.

(** ** Session metadata *)

Lemma createSession_effect (σ σ1 : storage) (c : callctx) (ti de : string)
    (dl n : N) (names : list string) (tl : string) (id : N) :
  createSession c ti de dl n names tl σ = Ok (id, σ1) ->
  effect σ c (CreateSession ti de dl n names tl) σ1.
Proof.
  intros H. apply createSession_Ok in H as (? & ? & ? & ? & -> & ->).
  by constructor.
Qed.

Lemma created_session_persists (σ σ1 : storage) (c : callctx)
    (ti de : string) (dl n : N) (names : list string) (tl : string) (id : N)
    (txs : list tx) :
  Inv σ -> msg_sender c <> 0 ->
  createSession c ti de dl n names tl σ = Ok (id, σ1) ->
  Inv σ1 /\ exists_session (steps σ1 txs) id /\
  exists st,
    session_at (steps σ1 txs) id
      = mkSession (msg_sender c) ti de dl st n names tl /\
    1 <= state_code st.
Proof.
  intros HI Hsender H.
  pose proof (effect_Inv _ _ _ _ HI (createSession_effect _ _ _ _ _ _ _ _ _ _ H))
    as HI1.
  apply createSession_Ok in H as (_ & _ & _ & _ & -> & ->).
  set (σ1 := set_session _ _ _) in *.
  assert (Hat : session_at σ1 (_sessionCounter σ) =
                mkSession (msg_sender c) ti de dl Active n names tl).
  { unfold σ1. by rewrite session_at_set_session, decide_True. }
  assert (Hex : exists_session σ1 (_sessionCounter σ)).
  { unfold exists_session. by rewrite Hat. }
  split; [done|]. split; [by apply steps_exists_session|].
  destruct (steps_session_at σ1 txs _ HI1 Hex) as (st' & Hs2 & Hle).
  exists st'. rewrite Hs2, Hat. split; [done|]. by rewrite Hat in Hle.
Qed.

(** X2.  Once a session has been created by an account, no transaction
    changes its metadata: [getSession] keeps returning the organizer, title,
    description, deadline, setup count and track list given at creation,
    together with a state that is never Draft; [getSessionState] returns the
    code of that same state and [isOrganizer] answers true for the creator
    only. *)
Theorem X2_session_metadata (σ σ1 : storage) (c : callctx) (ti de : string)
    (dl n : N) (names : list string) (tl : string) (id : N) (txs : list tx)
    (c' : callctx) :
  reachable σ -> msg_sender c <> 0 ->
  createSession c ti de dl n names tl σ = Ok (id, σ1) ->
  exists st,
    st <> Draft /\
    getSession c' id (steps σ1 txs)
      = Ok (msg_sender c, ti, de, dl, st, n, tl) /\
    getSessionState c' id (steps σ1 txs) = Ok (state_code st) /\
    forall a,
      isOrganizer c' id a (steps σ1 txs)
        = Ok (bool_decide (msg_sender c = a)).
Proof.
  intros Hreach Hsender H. pose proof (reachable_Inv σ Hreach) as HI.
  destruct (created_session_persists σ σ1 c ti de dl n names tl id txs
              HI Hsender H) as (_ & Hex & st & Hat & Hle).
  exists st. split; [by intros ->|].
  unfold getSession, getSessionState, isOrganizer.
  rewrite (proj2 (sessionExists_Ok _ _ tt) Hex). simpl.
  rewrite Hat. done.
Qed.

Lemma X2_witness :
  exists st,
    st <> Draft /\
    getSession (mkCtx carol 2000) 0
      (steps s_created [tx_bob; tx_close; tx_reveal])
      = Ok (msg_sender (tx_ctx tx_create), "Cartridges", "Blind test",
            4600, st, 2, "") /\
    getSessionState (mkCtx carol 2000) 0
      (steps s_created [tx_bob; tx_close; tx_reveal]) = Ok (state_code st) /\
    forall a,
      isOrganizer (mkCtx carol 2000) 0 a
        (steps s_created [tx_bob; tx_close; tx_reveal])
        = Ok (bool_decide (msg_sender (tx_ctx tx_create) = a)).
Proof.
  assert (Hr : reachable init) by (by exists []).
  assert (Hs : msg_sender (tx_ctx tx_create) <> 0)
    by (vm_compute; discriminate).
  assert (Hc : createSession (tx_ctx tx_create) "Cartridges" "Blind test"
                 4600 2 ["A"; "B"] "" init = Ok (0, s_created))
    by (vm_compute; reflexivity).
  exact (X2_session_metadata init s_created _ _ _ _ _ _ _ 0
           [tx_bob; tx_close; tx_reveal] (mkCtx carol 2000) Hr Hs Hc).
Defined.

(** ** Which error a rejected call reports *)

(** X3.  [createSession] checks the deadline first, then the setup count,
    then the number of names, and only then increments the counter: a
    deadline not after the block time gives "Deadline must be in future"
    whatever the other arguments; with a good deadline a setup count outside
    2..10 gives "Number of setups must be 2-10"; with both good a wrong
    number of names gives "Equipment names length mismatch"; and with all
    three good a saturated counter makes the call panic with 0x11. *)
Theorem X3_createSession_errors (σ : storage) (c : callctx) (ti de : string)
    (dl n : N) (names : list string) (tl : string) :
  (dl <= block_timestamp c ->
   createSession c ti de dl n names tl σ = Err InvalidDeadline) /\
  (block_timestamp c < dl -> n < 2 \/ 10 < n ->
   createSession c ti de dl n names tl σ = Err InvalidSetupCount) /\
  (block_timestamp c < dl -> 2 <= n <= 10 ->
   N.of_nat (length names) <> n ->
   createSession c ti de dl n names tl σ = Err NameCountMismatch) /\
  (block_timestamp c < dl -> 2 <= n <= 10 ->
   N.of_nat (length names) = n -> _sessionCounter σ = MAX_UINT256 ->
   createSession c ti de dl n names tl σ = Err Overflow).
Proof.
  unfold createSession. split; [|split; [|split]].
  - intros H. rewrite (require_false (_ <? _)) by by apply N.ltb_ge. done.
  - intros H1 H2. rewrite (require_true (_ <? _)) by by apply N.ltb_lt.
    simpl. rewrite (require_false (_ && _)); [done|].
    apply andb_false_iff. destruct H2; [left; by apply N.leb_gt|].
    right. by apply N.leb_gt.
  - intros H1 [H2 H3] H4.
    rewrite (require_true (_ <? _)) by by apply N.ltb_lt. simpl.
    rewrite (require_true (_ && _))
      by (apply andb_true_iff; split; by apply N.leb_le). simpl.
    rewrite (require_false (_ =? _)); [done|]. by apply N.eqb_neq.
  - intros H1 H2 H3 H4. by apply createSession_counter_exhausted.
Qed.

Lemma X3_witness :
  createSession (mkCtx alice 1000) "S" "" 900 1 [] "" init
    = Err InvalidDeadline /\
  createSession (mkCtx alice 1000) "S" "" 4600 1 [] "" init
    = Err InvalidSetupCount /\
  createSession (mkCtx alice 1000) "S" "" 4600 11 [] "" init
    = Err InvalidSetupCount /\
  createSession (mkCtx alice 1000) "S" "" 4600 3 ["A"; "B"] "" init
    = Err NameCountMismatch.
Proof.
  split; [|split; [|split]].
  - apply X3_createSession_errors. vm_compute. discriminate.
  - apply X3_createSession_errors; [vm_compute; reflexivity|].
    left. vm_compute. reflexivity.
  - apply X3_createSession_errors; [vm_compute; reflexivity|].
    right. vm_compute. reflexivity.
  - apply X3_createSession_errors; vm_compute;
      [reflexivity|split; discriminate|discriminate].
Defined.



(** ** What only the organizer can do *)

(** X5.  On an existing session every call of [closeSession],
    [revealEquipment] or [requestOrganizerDecryption] by an account other
    than the organizer fails with "Not session organizer", in every state of
    the session; and in a reachable storage no transaction at all sent by
    such an account changes the session's record or its requested flag. *)
Theorem X5_only_organizer (σ : storage) (s : N) (c : callctx) :
  exists_session σ s -> msg_sender c <> organizer (session_at σ s) ->
  closeSession c s σ = Err NotOrganizer /\
  revealEquipment c s σ = Err NotOrganizer /\
  requestOrganizerDecryption c s σ = Err NotOrganizer /\
  (reachable σ ->
   forall cl,
     session_at (step σ (mkTx c cl)) s = session_at σ s /\
     requested_at (step σ (mkTx c cl)) s = requested_at σ s).
Proof.
  intros Hex Hne.
  assert (Hne' : organizer (session_at σ s) <> msg_sender c) by congruence.
  split; [|split; [|split]].
  - unfold closeSession, onlyOrganizer, sessionExists, require.
    rewrite (bool_decide_eq_false_2 _ Hex). simpl.
    by rewrite (bool_decide_eq_false_2 _ Hne').
  - unfold revealEquipment, onlyOrganizer, sessionExists, require.
    rewrite (bool_decide_eq_false_2 _ Hex). simpl.
    by rewrite (bool_decide_eq_false_2 _ Hne').
  - unfold requestOrganizerDecryption, onlyOrganizer, sessionExists, require.
    rewrite (bool_decide_eq_false_2 _ Hex). simpl.
    by rewrite (bool_decide_eq_false_2 _ Hne').
  - intros Hreach cl. pose proof (reachable_Inv σ Hreach) as HI.
    destruct (exists_session_lookup σ s Hex) as (ss & Hss & Hat).
    destruct (step_cases σ (mkTx c cl)) as [-> | H]; [done|].
    simpl in H. destruct H.
    + rewrite session_at_set_session, decide_False; [done|].
      intros <-. apply (inv_fresh σ HI) in Hss. lia.
    + by rewrite session_at_submit_post, requested_at_submit_post.
    + rewrite session_at_set_session, decide_False; [done|]. congruence.
    + done.
    + unfold request_post. rewrite requested_at_set_requested.
      rewrite decide_False; [done|]. congruence.
    + rewrite session_at_set_session, decide_False; [done|]. congruence.
Qed.

Lemma X5_witness :
  closeSession (mkCtx bob 1300) 0 s_voted = Err NotOrganizer /\
  revealEquipment (mkCtx bob 1300) 0 s_closed = Err NotOrganizer /\
  requestOrganizerDecryption (mkCtx bob 1300) 0 s_closed = Err NotOrganizer.
Proof.
  assert (He : exists_session s_voted 0) by (vm_compute; discriminate).
  assert (Hn : msg_sender (mkCtx bob 1300)
               <> organizer (session_at s_voted 0))
    by (vm_compute; discriminate).
  assert (He' : exists_session s_closed 0) by (vm_compute; discriminate).
  assert (Hn' : msg_sender (mkCtx bob 1300)
                <> organizer (session_at s_closed 0))
    by (vm_compute; discriminate).
  destruct (X5_only_organizer s_voted 0 (mkCtx bob 1300) He Hn)
    as (H1 & _).
  destruct (X5_only_organizer s_closed 0 (mkCtx bob 1300) He' Hn')
    as (_ & H2 & H3 & _).
  exact (conj H1 (conj H2 H3)).
Defined.

(** ** After voting has ended *)

Lemma step_not_active (σ : storage) (t : tx) (s : N) :
  Inv σ -> exists_session σ s -> state (session_at σ s) <> Active ->
  exists_session (step σ t) s /\ state (session_at (step σ t) s) <> Active /\
  (state (session_at σ s) = Revealed ->
   state (session_at (step σ t) s) = Revealed) /\
  forall i v,
    voteCount_at (step σ t) s i = voteCount_at σ s i /\
    aggregate_handles (step σ t) s i = aggregate_handles σ s i /\
    vote_at (step σ t) s i v = vote_at σ s i v.
Proof.
  intros HI Hex Hst.
  destruct (exists_session_lookup σ s Hex) as (ss & Hss & Hat).
  destruct (step_session_lookup σ t s ss HI Hss) as (st' & Hl & Hcases).
  pose proof (session_at_lookup _ _ _ Hl) as Hat'.
  rewrite Hat in Hst.
  split; [|split; [|split]].
  - unfold exists_session. rewrite Hat'. simpl. by rewrite <- Hat.
  - rewrite Hat'. simpl.
    destruct Hcases as [-> | [[? ->] | [? ->]]]; done.
  - rewrite Hat, Hat'. simpl. intros Hrev.
    destruct Hcases as [-> | [[? ->] | [? ->]]]; congruence.
  - intros i v. destruct (step_cases σ t) as [-> | H]; [done|].
    destruct H; try done.
    assert (s0 <> s) by (intros ->; rewrite Hat in *; congruence).
    rewrite voteCount_at_submit_post, aggregate_handles_submit_post,
      vote_at_submit_post.
    rewrite !decide_False by congruence. done.
Qed.

Lemma steps_not_active (σ : storage) (txs : list tx) (s : N) :
  Inv σ -> exists_session σ s -> state (session_at σ s) <> Active ->
  exists_session (steps σ txs) s /\
  state (session_at (steps σ txs) s) <> Active /\
  (state (session_at σ s) = Revealed ->
   state (session_at (steps σ txs) s) = Revealed) /\
  forall i v,
    voteCount_at (steps σ txs) s i = voteCount_at σ s i /\
    aggregate_handles (steps σ txs) s i = aggregate_handles σ s i /\
    vote_at (steps σ txs) s i v = vote_at σ s i v.
Proof.
  revert σ. induction txs as [|t txs IH]; intros σ HI Hex Hst; [done|].
  simpl. destruct (step_not_active σ t s HI Hex Hst) as (Hex1 & Hst1 & Hr1 & H1).
  destruct (IH _ (step_Inv σ t HI) Hex1 Hst1) as (Hex2 & Hst2 & Hr2 & H2).
  split; [done|]. split; [done|]. split; [by intros ?; apply Hr2, Hr1|].
  intros i v. destruct (H2 i v) as (-> & -> & ->). apply H1.
Qed.

(** X6.  Closing is final for the ballots: once an existing session of a
    reachable storage is no longer Active, then whatever transactions
    follow, no [submitVote] for it succeeds, and its vote counters, its
    aggregate handles and every stored ballot stay exactly as they were. *)
Theorem X6_votes_frozen (σ : storage) (s : N) (txs : list tx) :
  reachable σ -> exists_session σ s -> state (session_at σ s) <> Active ->
  (forall c i r ts p,
     submitVote c s i r ts p (steps σ txs) = Err SessionNotActive) /\
  forall i v,
    voteCount_at (steps σ txs) s i = voteCount_at σ s i /\
    aggregate_handles (steps σ txs) s i = aggregate_handles σ s i /\
    vote_at (steps σ txs) s i v = vote_at σ s i v.
Proof.
  intros Hreach Hex Hst. pose proof (reachable_Inv σ Hreach) as HI.
  destruct (steps_not_active σ txs s HI Hex Hst) as (Hex2 & Hst2 & _ & H).
  split; [|done]. intros c i r ts p.
  unfold submitVote, onlyActiveSession, sessionExists, require.
  rewrite (bool_decide_eq_false_2 _ Hex2). simpl.
  by rewrite (bool_decide_eq_false_2 _ Hst2).
Qed.

Lemma X6_witness :
  submitVote (mkCtx carol 1350) 0 1 carol_rating carol_tags carol_proof
    (steps s_closed [tx_request; tx_reveal]) = Err SessionNotActive /\
  voteCount_at (steps s_closed [tx_request; tx_reveal]) 0 0
    = voteCount_at s_closed 0 0.
Proof.
  assert (Hr : reachable s_closed) by (eexists; reflexivity).
  assert (He : exists_session s_closed 0) by (vm_compute; discriminate).
  assert (Hs : state (session_at s_closed 0) <> Active)
    by (vm_compute; discriminate).
  destruct (X6_votes_frozen s_closed 0 [tx_request; tx_reveal] Hr He Hs)
    as (H1 & H2).
  split; [apply H1|]. destruct (H2 0 bob) as (H & _). exact H.
Defined.

(** X7.  Revealing before requesting decryption locks the aggregates for
    good: if an existing session of a reachable storage is Revealed and its
    requested flag is not set, then whatever transactions follow the session
    stays Revealed, the flag stays unset, and every call of
    [requestOrganizerDecryption] for it fails, the organizer's with
    "Session not closed". *)
Theorem X7_reveal_before_request (σ : storage) (s : N) (txs : list tx) :
  reachable σ -> exists_session σ s ->
  state (session_at σ s) = Revealed -> requested_at σ s = false ->
  state (session_at (steps σ txs) s) = Revealed /\
  requested_at (steps σ txs) s = false /\
  forall c,
    is_ok (requestOrganizerDecryption c s (steps σ txs)) = false /\
    (msg_sender c = organizer (session_at (steps σ txs) s) ->
     requestOrganizerDecryption c s (steps σ txs) = Err NotClosed).
Proof.
  intros Hreach Hex Hrev Hreq. pose proof (reachable_Inv σ Hreach) as HI.
  assert (Hna : state (session_at σ s) <> Active) by congruence.
  destruct (steps_not_active σ txs s HI Hex Hna) as (Hex2 & _ & Hr2 & _).
  specialize (Hr2 Hrev).
  assert (Hflag : requested_at (steps σ txs) s = false).
  { clear Hex2 Hr2. revert σ Hreach HI Hex Hrev Hreq Hna.
    induction txs as [|t txs IH]; intros σ Hreach HI Hex Hrev Hreq Hna;
      [done|].
    simpl.
    destruct (step_not_active σ t s HI Hex Hna) as (Hex1 & Hna1 & Hr1 & _).
    apply IH; try done.
    - by apply reachable_step.
    - by apply step_Inv.
    - by apply Hr1.
    - destruct (step_cases σ t) as [-> | H]; [done|].
      destruct H; try done.
      + by rewrite requested_at_submit_post.
      + unfold request_post. rewrite requested_at_set_requested.
        case_decide; [|done]. simplify_eq. congruence. }
  split; [done|]. split; [done|]. intros c. split.
  - destruct (requestOrganizerDecryption c s (steps σ txs)) as [σ'|e] eqn:H;
      [|done].
    apply requestOrganizerDecryption_Ok in H as (_ & _ & H & _). congruence.
  - intros Ho. unfold requestOrganizerDecryption, onlyOrganizer,
      onlyClosedSession, sessionExists, require.
    rewrite (bool_decide_eq_false_2 _ Hex2). simpl.
    rewrite (bool_decide_eq_true_2 _ (eq_sym Ho)). simpl.
    rewrite bool_decide_eq_false_2; [done|]. rewrite Hr2. discriminate.
Qed.

Lemma X7_witness :
  requestOrganizerDecryption (mkCtx alice 1600) 0
    (steps s_revealed_early [tx_request]) = Err NotClosed /\
  requested_at (steps s_revealed_early [tx_request]) 0 = false.
Proof.
  assert (Hr : reachable s_revealed_early) by (eexists; reflexivity).
  assert (He : exists_session s_revealed_early 0)
    by (vm_compute; discriminate).
  assert (Hs : state (session_at s_revealed_early 0) = Revealed)
    by (vm_compute; reflexivity).
  assert (Hq : requested_at s_revealed_early 0 = false)
    by (vm_compute; reflexivity).
  destruct (X7_reveal_before_request s_revealed_early 0 [tx_request]
              Hr He Hs Hq) as (_ & H2 & H3).
  split; [|exact H2].
  destruct (H3 (mkCtx alice 1600)) as (_ & H4). apply H4.
  vm_compute. reflexivity.
Defined.

(** ** Grants are never revoked *)

Lemma step_acl_mono (σ : storage) (t : tx) (h : handle) (p : principal) :
  (h, p) ∈ acl σ -> (h, p) ∈ acl (step σ t).
Proof.
  intros Hin. destruct (step_cases σ t) as [-> | H]; [done|].
  destruct H; try done.
  - apply acl_submit_post. by left.
  - apply acl_request_post. by left.
Qed.

Lemma steps_acl_mono (σ : storage) (txs : list tx) (h : handle)
    (p : principal) :
  (h, p) ∈ acl σ -> (h, p) ∈ acl (steps σ txs).
Proof.
  revert σ. induction txs as [|t txs IH]; intros σ Hin; [done|].
  simpl. by apply IH, step_acl_mono.
Qed.

(** X8.  No transaction removes a grant: a principal allowed on a handle
    stays allowed after any sequence of transactions.  In particular, from
    the moment a [submitVote] has succeeded the voter and the contract are
    allowed on each of the six ciphertexts of the ballot, and the contract
    on each of the six aggregate handles the call left for the setup. *)
Theorem X8_grants_kept (σ : storage) (txs : list tx) :
  (forall h p,
     isAllowed h p (acl σ) = true ->
     isAllowed h p (acl (steps σ txs)) = true) /\
  (forall σ0 c s i r ts p h,
     submitVote c s i r ts p σ0 = Ok σ ->
     (h ∈ handles_of r ts ->
      isAllowed h (User (msg_sender c)) (acl (steps σ txs)) = true /\
      isAllowed h Contract (acl (steps σ txs)) = true) /\
     (h ∈ aggregate_handles σ s i ->
      isAllowed h Contract (acl (steps σ txs)) = true)).
Proof.
  assert (Hmono : forall h p,
            isAllowed h p (acl σ) = true ->
            isAllowed h p (acl (steps σ txs)) = true).
  { intros h p H. apply bool_decide_eq_true in H.
    by apply bool_decide_eq_true, steps_acl_mono. }
  split; [done|].
  intros σ0 c s i r ts p h H.
  apply submitVote_Ok in H as (_ & _ & _ & _ & _ & _ & _ & _ & ->).
  split.
  - intros Hin. split; apply Hmono, bool_decide_eq_true, acl_submit_post;
      right; left; tauto.
  - intros Hin. apply Hmono, bool_decide_eq_true, acl_submit_post.
    right; right. done.
Qed.

Lemma X8_witness :
  isAllowed bob_rating (User bob)
    (acl (steps (steps s_created [tx_bob])
            [tx_carol; tx_close; tx_request; tx_reveal])) = true /\
  isAllowed bob_rating Contract
    (acl (steps (steps s_created [tx_bob])
            [tx_carol; tx_close; tx_request; tx_reveal])) = true.
Proof.
  assert (Hok : submitVote (tx_ctx tx_bob) 0 0 bob_rating bob_tags bob_proof
                  s_created = Ok (steps s_created [tx_bob]))
    by (vm_compute; reflexivity).
  destruct (X8_grants_kept (steps s_created [tx_bob])
              [tx_carol; tx_close; tx_request; tx_reveal]) as (_ & H).
  destruct (H s_created (tx_ctx tx_bob) 0 0 bob_rating bob_tags bob_proof
              bob_rating Hok) as (H1 & _).
  apply H1. apply list_elem_of_here.
Defined.

(** ** Who can read an aggregate of several ballots *)



(** ** The aggregate handles are left folds of the ballots *)

Lemma fold_handles_snoc (hs : list handle) (h : handle) :
  hs <> [] -> fold_handles (hs ++ [h]) = FHE_add (fold_handles hs) h.
Proof.
  destruct hs as [|h0 hs]; [done|]. intros _. simpl. by rewrite foldl_app.
Qed.

Lemma fold_tags_snoc (ts : list (Array5 handle)) (t : Array5 handle) :
  ts <> [] -> fold_tags (ts ++ [t]) = zip5 FHE_add (fold_tags ts) t.
Proof.
  destruct ts as [|t0 ts]; [done|]. intros _. simpl. by rewrite foldl_app.
Qed.

Lemma fold_steps (σ : storage) (txs : list tx) (s i : N) (bs : list ballot) :
  voteCount_at σ s i = N.of_nat (length bs) ->
  total_at σ s i = fold_handles (map fst bs) ->
  tagTotals_at σ s i = fold_tags (map snd bs) ->
  total_at (steps σ txs) s i
    = fold_handles (map fst (bs ++ history s i σ txs)) /\
  tagTotals_at (steps σ txs) s i
    = fold_tags (map snd (bs ++ history s i σ txs)).
Proof.
  revert σ bs. induction txs as [|t txs IH]; intros σ bs Hc Htot Htags; simpl.
  - by rewrite app_nil_r.
  - rewrite app_assoc.
    destruct (accepted_cases σ t s i)
      as [(-> & Hc1 & Htot1 & Htags1)
         |(c & r & ts & p & -> & -> & _ & _ & Hpost)].
    + rewrite app_nil_r. apply IH; congruence.
    + apply IH; rewrite Hpost.
      * rewrite voteCount_at_submit_post, decide_True by done.
        rewrite length_app. simpl. lia.
      * rewrite total_at_submit_post, decide_True by done.
        rewrite map_app. simpl.
        destruct (N.eqb_spec (voteCount_at σ s i) 0) as [Hz|Hnz].
        -- destruct bs; [done|]. simpl in Hc. lia.
        -- rewrite fold_handles_snoc, Htot; [done|].
           destruct bs; [|done]. simpl in Hc. lia.
      * rewrite tagTotals_at_submit_post, decide_True by done.
        rewrite map_app. simpl.
        destruct (N.eqb_spec (voteCount_at σ s i) 0) as [Hz|Hnz].
        -- destruct bs; [done|]. simpl in Hc. lia.
        -- rewrite fold_tags_snoc, Htags; [done|].
           destruct bs; [|done]. simpl in Hc. lia.
Qed.

(** X10.  After any sequence of transactions on the freshly deployed
    contract, the rating total of a setup is the handle
    [((r1 + r2) + ...) + rk] built by [FHE.add] from the rating handles of
    the accepted ballots in the order they were submitted, and the tag totals
    are built in the same way; with a single accepted ballot the aggregate
    handles are that ballot's own handles, and with none they are the zero
    handles. *)
Theorem X10_aggregate_is_fold (txs : list tx) (s i : N) :
  total_at (steps init txs) s i
    = fold_handles (map fst (history s i init txs)) /\
  tagTotals_at (steps init txs) s i
    = fold_tags (map snd (history s i init txs)) /\
  (forall r ts,
     history s i init txs = [(r, ts)] ->
     aggregate_handles (steps init txs) s i = handles_of r ts).
Proof.
  destruct (fold_steps init txs s i [] eq_refl eq_refl eq_refl)
    as [Htot Htags].
  simpl in Htot, Htags. split; [done|]. split; [done|].
  intros r ts Hh. unfold aggregate_handles. rewrite Htot, Htags, Hh. done.
Qed.

Lemma X10_witness :
  aggregate_handles (steps init [tx_create; tx_bob; tx_close]) 0 0
    = handles_of bob_rating bob_tags.
Proof.
  apply (X10_aggregate_is_fold [tx_create; tx_bob; tx_close] 0 0).
  vm_compute. reflexivity.
Defined.

(** ** The second invariant *)

Lemma step_exists_session (σ : storage) (t : tx) (s : N) :
  Inv σ -> exists_session σ s ->
  exists_session (step σ t) s /\
  numSetups (session_at (step σ t) s) = numSetups (session_at σ s).
Proof.
  intros HI Hex.
  destruct (exists_session_lookup σ s Hex) as (ss & Hss & Hat).
  destruct (step_session_lookup σ t s ss HI Hss) as (st' & Hl & _).
  unfold exists_session in *. rewrite (session_at_lookup _ _ _ Hl).
  rewrite Hat in *. done.
Qed.

Lemma unvoted_lookup (σ : storage) (s i : N) (v : address) :
  Inv σ -> submitted (vote_at σ s i v) = false ->
  _votes σ !! (s, i, v) = None.
Proof.
  intros HI Hno. destruct (_votes σ !! (s, i, v)) as [vt|] eqn:Hl; [|done].
  destruct (inv_votes σ HI s i v vt Hl) as [Hsub _].
  unfold vote_at in Hno. rewrite Hl in Hno. simpl in Hno. congruence.
Qed.

Lemma voters_submit_post (σ : storage) (u : address) (s i : N) (r : handle)
    (ts : Array5 handle) (s' i' : N) :
  Inv σ -> submitted (vote_at σ s i u) = false ->
  voters (submit_post u s i r ts σ) s' i' ≡ₚ
  (if decide ((s, i) = (s', i')) then [u] else []) ++ voters σ s' i'.
Proof.
  intros HI Hno. unfold voters. rewrite votes_submit_post.
  rewrite map_to_list_insert by by apply unvoted_lookup.
  simpl. unfold voter_of at 1. simpl.
  by repeat case_decide.
Qed.

(** What a transaction does to one setup: nothing, or it is a successful
    [submitVote] for that setup. *)
Lemma step_setup_cases (σ : storage) (t : tx) (s i : N) :
  Inv σ ->
  (voteCount_at (step σ t) s i = voteCount_at σ s i /\
   aggregate_handles (step σ t) s i = aggregate_handles σ s i /\
   voters (step σ t) s i ≡ₚ voters σ s i /\
   forall v, vote_at (step σ t) s i v = vote_at σ s i v) \/
  (exists c r ts p,
     effect σ c (SubmitVote s i r ts p)
       (submit_post (msg_sender c) s i r ts σ) /\
     step σ t = submit_post (msg_sender c) s i r ts σ).
Proof.
  intros HI. destruct (step_cases σ t) as [-> | H]; [by left|].
  destruct H as [| s0 i0 r ts p | | | |]; try (by left).
  destruct (decide ((s0, i0) = (s, i))) as [Heq|Hne].
  - simplify_eq. right. exists (tx_ctx t), r, ts, p. split; [|done].
    by constructor.
  - left. rewrite voteCount_at_submit_post, aggregate_handles_submit_post.
    rewrite !decide_False by done. split; [done|]. split; [done|]. split.
    + rewrite voters_submit_post by done. by rewrite decide_False.
    + intros v. rewrite vote_at_submit_post. rewrite decide_False; [done|].
      congruence.
Qed.

Lemma Inv2_init : Inv2 init.
Proof.
  split; try done.
  intros id H. simpl in H. lia.
Qed.

Lemma step_Inv2 (σ : storage) (t : tx) : Inv σ -> Inv2 σ -> Inv2 (step σ t).
Proof.
  intros HI HI2. split.
  - intros id Hid.
    assert (Hkeep : is_Some (_sessions σ !! id) ->
              is_Some (_sessions (step σ t) !! id)).
    { intros [ss Hss].
      destruct (step_session_lookup σ t id ss HI Hss) as (st' & -> & _).
      done. }
    destruct (step_cases σ t) as [Heq | H].
    { apply Hkeep, (inv2_dense σ HI2). by rewrite Heq in Hid. }
    destruct H; try (apply Hkeep, (inv2_dense σ HI2); exact Hid).
    + simpl in Hid |- *. rewrite lookup_insert. case_decide; [done|].
      apply (inv2_dense σ HI2). lia.
    + apply Hkeep, (inv2_dense σ HI2).
      by rewrite sessionCounter_submit_post in Hid.
  - intros s i v Hsub.
    destruct (step_setup_cases σ t s i HI)
      as [(Hc & _ & _ & Hv) | (c & r & ts & p & _ & Hpost)].
    + rewrite Hc. apply (inv2_votes σ HI2 s i v). by rewrite <- Hv.
    + rewrite Hpost, voteCount_at_submit_post, decide_True by done. lia.
  - intros s i Hpos.
    assert (Hold : exists_session σ s /\ i < numSetups (session_at σ s) ->
              exists_session (step σ t) s /\
              i < numSetups (session_at (step σ t) s)).
    { intros [Hex Hi].
      destruct (step_exists_session σ t s HI Hex) as [Hex' ->]. done. }
    destruct (step_setup_cases σ t s i HI)
      as [(Hc & _ & _ & _) | (c & r & ts & p & Heff & Hpost)].
    + rewrite Hc in Hpos |- *.
      destruct (inv2_counts σ HI2 s i Hpos) as (Hex & Hi & Hle).
      destruct (Hold (conj Hex Hi)). done.
    + inversion Heff; subst.
      match goal with Hex : exists_session σ s, Hi : i < _ |- _ =>
        destruct (Hold (conj Hex Hi)) end.
      split; [done|]. split; [done|].
      rewrite Hpost, voteCount_at_submit_post, decide_True by done.
      unfold MAX_UINT16 in *. lia.
  - intros s i h Hpos Hin.
    destruct (step_setup_cases σ t s i HI)
      as [(Hc & Ha & _ & _) | (c & r & ts & p & _ & Hpost)].
    + apply step_acl_mono. rewrite Hc in Hpos. rewrite Ha in Hin.
      by apply (inv2_self σ HI2 s i).
    + rewrite Hpost in Hin |- *. apply acl_submit_post. right; right. done.
  - intros s i.
    destruct (step_setup_cases σ t s i HI)
      as [(Hc & _ & Hp & _) | (c & r & ts & p & Heff & Hpost)].
    + rewrite Hc, Hp. apply (inv2_voters σ HI2).
    + inversion Heff; subst. rewrite Hpost.
      rewrite voteCount_at_submit_post, decide_True by done.
      rewrite voters_submit_post, decide_True by done.
      simpl. rewrite (inv2_voters σ HI2 s i). lia.
Qed.

Lemma steps_Inv2 (σ : storage) (txs : list tx) :
  Inv σ -> Inv2 σ -> Inv2 (steps σ txs).
Proof.
  revert σ. induction txs as [|t txs IH]; intros σ HI HI2; [done|].
  simpl. apply IH; [by apply step_Inv|by apply step_Inv2].
Qed.

Lemma reachable_Inv2 (σ : storage) : reachable σ -> Inv2 σ.
Proof. intros [ts ->]. apply steps_Inv2; [apply Inv_init|apply Inv2_init]. Qed.

(** ** The vote counter counts voters *)

Lemma NoDup_omap_inj {A B : Type} (f : A -> option B) (l : list A) :
  (forall x y z, x ∈ l -> y ∈ l -> f x = Some z -> f y = Some z -> x = y) ->
  NoDup l -> NoDup (omap f l).
Proof.
  intros Hinj Hnd. induction Hnd as [|x l Hx Hnd IH]; simpl; [constructor|].
  assert (IH' : NoDup (omap f l)).
  { apply IH. intros a b z Ha Hb. apply Hinj; by apply list_elem_of_further. }
  destruct (f x) as [z|] eqn:Hfx; [|done].
  constructor; [|done].
  intros Hz. apply list_elem_of_omap in Hz as (y & Hy & Hfy).
  assert (x = y).
  { eapply Hinj; [apply list_elem_of_here|by apply list_elem_of_further|
                  exact Hfx|exact Hfy]. }
  by subst.
Qed.

Lemma elem_of_voters (σ : storage) (s i : N) (v : address) :
  v ∈ voters σ s i <-> is_Some (_votes σ !! (s, i, v)).
Proof.
  unfold voters. rewrite list_elem_of_omap. split.
  - intros ([[[s' i'] v'] vt] & Hin & Hv). unfold voter_of in Hv.
    simpl in Hv. case_decide; simplify_eq.
    apply elem_of_map_to_list in Hin. by exists vt.
  - intros [vt Hl]. exists (s, i, v, vt). split.
    + by apply elem_of_map_to_list.
    + unfold voter_of. simpl. by rewrite decide_True.
Qed.

Lemma NoDup_voters (σ : storage) (s i : N) : NoDup (voters σ s i).
Proof.
  unfold voters. apply NoDup_omap_inj; [|apply NoDup_map_to_list].
  intros [[[s1 i1] v1] vt1] [[[s2 i2] v2] vt2] z H1 H2 Hf1 Hf2.
  unfold voter_of in Hf1, Hf2. simpl in Hf1, Hf2.
  repeat case_decide; simplify_eq.
  apply elem_of_map_to_list in H1, H2. congruence.
Qed.

(** X11.  In a reachable storage the vote counter of a setup is the number
    of distinct addresses for which [hasVoted] answers true: the stored
    voters of the setup form a duplicate-free list whose length
    [getVoteCount] returns. *)
Theorem X11_count_is_voters (σ : storage) (s i : N) (c : callctx) :
  reachable σ ->
  NoDup (voters σ s i) /\
  (forall v, v ∈ voters σ s i <-> hasVoted c s i v σ = Ok true) /\
  voteCount_at σ s i = N.of_nat (length (voters σ s i)) /\
  (exists_session σ s ->
   getVoteCount c s i σ = Ok (N.of_nat (length (voters σ s i)))).
Proof.
  intros Hreach. pose proof (reachable_Inv σ Hreach) as HI.
  pose proof (reachable_Inv2 σ Hreach) as HI2.
  split; [apply NoDup_voters|]. split; [|split].
  - intros v. rewrite elem_of_voters. unfold hasVoted. split.
    + intros [vt Hl]. destruct (inv_votes σ HI s i v vt Hl) as [Hsub _].
      unfold vote_at. rewrite Hl. simpl. by rewrite Hsub.
    + intros [= Hsub]. rewrite (submitted_lookup σ s i v Hsub). done.
  - apply (inv2_voters σ HI2).
  - intros Hex. unfold getVoteCount.
    rewrite (proj2 (sessionExists_Ok _ _ tt) Hex). simpl.
    by rewrite (inv2_voters σ HI2).
Qed.

Lemma X11_witness :
  NoDup (voters s_voted 0 0) /\
  (bob ∈ voters s_voted 0 0 <->
   hasVoted (mkCtx alice 1250) 0 0 bob s_voted = Ok true) /\
  voteCount_at s_voted 0 0 = N.of_nat (length (voters s_voted 0 0)).
Proof.
  assert (Hr : reachable s_voted) by (eexists; reflexivity).
  destruct (X11_count_is_voters s_voted 0 0 (mkCtx alice 1250) Hr)
    as (H1 & H2 & H3 & _).
  exact (conj H1 (conj (H2 bob) H3)).
Defined.

(** X12.  In a reachable storage a ballot exists only for a valid setup of
    an existing session: if [hasVoted] answers true, or the vote counter of
    a setup is positive, then the session exists, the setup index is below
    its setup count and the counter is between 1 and [2^16 - 1]; and the
    contract itself is allowed on each aggregate handle of such a setup. *)
Theorem X12_ballots_in_valid_setups (σ : storage) (s i : N) (c : callctx) :
  reachable σ ->
  (forall v, hasVoted c s i v σ = Ok true -> 0 < voteCount_at σ s i) /\
  (0 < voteCount_at σ s i ->
   exists_session σ s /\ i < numSetups (session_at σ s) /\
   getVoteCount c s i σ = Ok (voteCount_at σ s i) /\
   voteCount_at σ s i <= MAX_UINT16 /\
   forall h, h ∈ aggregate_handles σ s i ->
             isAllowed h Contract (acl σ) = true).
Proof.
  intros Hreach. pose proof (reachable_Inv2 σ Hreach) as HI2. split.
  - intros v [= Hsub]. by apply (inv2_votes σ HI2 s i v).
  - intros Hpos. destruct (inv2_counts σ HI2 s i Hpos) as (Hex & Hi & Hle).
    split; [done|]. split; [done|]. split.
    { unfold getVoteCount. by rewrite (proj2 (sessionExists_Ok _ _ tt) Hex). }
    split; [done|]. intros h Hin. apply bool_decide_eq_true.
    by apply (inv2_self σ HI2 s i).
Qed.

Lemma X12_witness :
  0 < voteCount_at s_voted 0 0 /\
  exists_session s_voted 0 /\ 0 < numSetups (session_at s_voted 0) /\
  isAllowed (HAdd bob_rating carol_rating) Contract (acl s_voted) = true.
Proof.
  assert (Hr : reachable s_voted) by (eexists; reflexivity).
  destruct (X12_ballots_in_valid_setups s_voted 0 0 (mkCtx alice 1250) Hr)
    as (H1 & H2).
  assert (Hpos : 0 < voteCount_at s_voted 0 0).
  { apply (H1 bob). vm_compute. reflexivity. }
  destruct (H2 Hpos) as (He & Hi & _ & _ & Hall).
  split; [exact Hpos|]. split; [exact He|]. split; [exact Hi|].
  apply Hall. apply (bool_decide_unpack _). vm_compute. exact I.
Defined.

(** ** Session ids *)

Lemma step_creations (σ : storage) (t : tx) :
  _sessionCounter (step σ t) =
  _sessionCounter σ +
  N.of_nat (match tx_call t with
            | CreateSession _ _ _ _ _ _ => if is_ok (run t σ) then 1 else 0
            | _ => 0
            end).
Proof.
  unfold step. destruct t as [c cl]. simpl.
  destruct (run (mkTx c cl) σ) as [σ'|e] eqn:Hrun; simpl.
  - apply run_Ok_effect in Hrun. simpl in Hrun.
    destruct Hrun; rewrite ?sessionCounter_submit_post; simpl; lia.
  - destruct cl; simpl; lia.
Qed.

Lemma steps_creations (σ : storage) (txs : list tx) :
  _sessionCounter (steps σ txs)
  = _sessionCounter σ + N.of_nat (creations σ txs).
Proof.
  revert σ. induction txs as [|t txs IH]; intros σ; simpl; [lia|].
  rewrite IH, step_creations. lia.
Qed.

Lemma step_organizers (σ : storage) (t : tx) :
  Inv σ -> msg_sender (tx_ctx t) <> 0 ->
  (forall id ss, _sessions σ !! id = Some ss -> organizer ss <> 0) ->
  forall id ss, _sessions (step σ t) !! id = Some ss -> organizer ss <> 0.
Proof.
  intros HI Hsender Hold id ss Hl.
  destruct (_sessions σ !! id) as [ss0|] eqn:Hl0.
  - destruct (step_session_lookup σ t id ss0 HI Hl0) as (st' & Hl' & _).
    rewrite Hl' in Hl. simplify_eq. simpl. by eapply Hold.
  - destruct (step_cases σ t) as [Heq | H]; [congruence|].
    destruct H; rewrite ?sessions_submit_post in Hl; simpl in Hl;
      try congruence.
    + rewrite lookup_insert in Hl. case_decide; simplify_eq. done.
    + rewrite lookup_insert in Hl. case_decide; simplify_eq.
      match goal with H : exists_session σ _ |- _ =>
        apply exists_session_lookup in H as (? & ? & _) end. congruence.
    + rewrite lookup_insert in Hl. case_decide; simplify_eq.
      match goal with H : exists_session σ _ |- _ =>
        apply exists_session_lookup in H as (? & ? & _) end. congruence.
Qed.

Lemma steps_organizers (txs : list tx) :
  real_senders txs ->
  forall id ss, _sessions (steps init txs) !! id = Some ss -> organizer ss <> 0.
Proof.
  intros Hreal.
  assert (Hgen : forall σ, Inv σ ->
            (forall id ss, _sessions σ !! id = Some ss -> organizer ss <> 0) ->
            forall id ss, _sessions (steps σ txs) !! id = Some ss ->
                          organizer ss <> 0).
  { induction Hreal as [|t txs Ht Hreal IH]; intros σ HI Hold; [done|].
    simpl. apply IH; [by apply step_Inv|by apply step_organizers]. }
  apply Hgen; [apply Inv_init|]. intros id ss H. done.
Qed.

Lemma real_senders_exist (txs : list tx) (id : N) :
  real_senders txs ->
  (exists_session (steps init txs) id <-> id < _sessionCounter (steps init txs)).
Proof.
  intros Hreal.
  assert (Hr : reachable (steps init txs)) by by exists txs.
  split.
  - intros Hex. destruct (exists_session_lookup _ id Hex) as (ss & Hss & _).
    by apply (inv_fresh _ (reachable_Inv _ Hr)) in Hss.
  - intros Hlt. destruct (inv2_dense _ (reachable_Inv2 _ Hr) id Hlt)
      as [ss Hss].
    unfold exists_session. rewrite (session_at_lookup _ _ _ Hss).
    by eapply steps_organizers.
Qed.

(** X13.  After any sequence of transactions sent by accounts to the
    freshly deployed contract, [getSessionCount] returns the number of
    [createSession] calls that succeeded, and the existing sessions are
    exactly the ids below it: [getSession] succeeds for every id below the
    count and fails with "Session does not exist" for every other id. *)
Theorem X13_session_ids (txs : list tx) (c : callctx) (id : N) :
  real_senders txs ->
  getSessionCount c (steps init txs) = Ok (N.of_nat (creations init txs)) /\
  (id < N.of_nat (creations init txs) ->
   is_ok (getSession c id (steps init txs)) = true) /\
  (N.of_nat (creations init txs) <= id ->
   getSession c id (steps init txs) = Err SessionNotFound).
Proof.
  intros Hreal. pose proof (steps_creations init txs) as Hc.
  change (_sessionCounter init) with 0 in Hc. rewrite N.add_0_l in Hc.
  unfold getSessionCount. rewrite Hc. split; [done|].
  rewrite <- Hc. split.
  - intros Hlt. apply (real_senders_exist txs id Hreal) in Hlt.
    unfold getSession. by rewrite (proj2 (sessionExists_Ok _ _ tt) Hlt).
  - intros Hge. unfold getSession. rewrite sessionExists_Err; [done|].
    rewrite (real_senders_exist txs id Hreal). lia.
Qed.

Lemma X13_witness :
  getSessionCount (mkCtx carol 2000)
    (steps init [tx_create; tx_bob; tx_create; tx_close])
    = Ok (N.of_nat (creations init [tx_create; tx_bob; tx_create; tx_close])).
Proof.
  apply (X13_session_ids [tx_create; tx_bob; tx_create; tx_close]
           (mkCtx carol 2000) 0).
  repeat constructor; vm_compute; discriminate.
Defined.

(** * The front-end hook *)

(** ** [getAggregatedHandles] *)

Lemma tag_queries (σ : storage) (c : callctx) (s i : N) :
  exists_session σ s -> i < numSetups (session_at σ s) ->
  map (fun j => or_else (getTagTotal c s i j σ) HNone) [0; 1; 2; 3; 4]
  = to_list5 (tagTotals_at σ s i).
Proof.
  intros Hex Hi. unfold getTagTotal.
  rewrite (proj2 (sessionExists_Ok _ _ tt) Hex). simpl.
  rewrite (require_true (i <? _)) by by apply N.ltb_lt. done.
Qed.

Lemma aggregate_loop_closed (a : address) (c : callctx) (s : N)
    (names : list string) (σ : storage) (idx : list N) :
  exists_session σ s ->
  Forall (fun i => i < numSetups (session_at σ s)) idx ->
  aggregate_loop a c s names σ idx
  = Ok (map (aggregated_entry a names σ s)
          (filter (fun i => voteCount_at σ s i <> 0) idx)).
Proof.
  intros Hex Hidx. induction Hidx as [|i idx Hi Hidx IH]; [done|].
  assert (Hcount : getVoteCount c s i σ = Ok (voteCount_at σ s i)).
  { unfold getVoteCount. by rewrite (proj2 (sessionExists_Ok _ _ tt) Hex). }
  assert (Htotal : getSessionTotal c s i σ = Ok (total_at σ s i)).
  { unfold getSessionTotal.
    rewrite (proj2 (sessionExists_Ok _ _ tt) Hex). simpl.
    by rewrite (require_true (i <? _)) by by apply N.ltb_lt. }
  cbn [aggregate_loop]. rewrite Hcount, Htotal, (tag_queries σ c s i Hex Hi).
  rewrite IH, filter_cons. simpl.
  destruct (N.eqb_spec (voteCount_at σ s i) 0) as [Hz|Hnz].
  - by rewrite decide_False by (intros H; by apply H).
  - by rewrite decide_True by done.
Qed.

Lemma getAggregatedHandles_closed (a : address) (c : callctx) (s : N)
    (σ : storage) :
  exists_session σ s ->
  getAggregatedHandles true (Some a) c s σ
  = map (aggregated_entry a (or_else (getEquipmentNames c s σ) []) σ s)
      (filter (fun i => voteCount_at σ s i <> 0)
         (setup_indices (numSetups (session_at σ s)))).
Proof.
  intros Hex. unfold getAggregatedHandles, getSession.
  rewrite (proj2 (sessionExists_Ok _ _ tt) Hex). simpl.
  rewrite aggregate_loop_closed; [done|done|].
  apply Forall_forall. intros i. apply elem_of_setup_indices.
Qed.

(** X14.  Read against a reachable storage, [getAggregatedHandles] returns
    nothing without a provider or a deployed contract or for an unknown
    session; for an existing session it returns one entry per setup index
    below the setup count whose vote counter is not zero, in increasing
    order of the index.  Each entry carries the setup's vote counter and its
    six aggregate handles as stored, none of which is the zero handle (the
    [ZeroHash] fallback is never taken), and, unless the session is Revealed,
    the default name "Setup i+1". *)
Theorem X14_getAggregatedHandles (σ : storage) (a : address) (c : callctx)
    (s : N) :
  reachable σ ->
  getAggregatedHandles false (Some a) c s σ = [] /\
  getAggregatedHandles true None c s σ = [] /\
  (~ exists_session σ s -> getAggregatedHandles true (Some a) c s σ = []) /\
  (exists_session σ s ->
   map agg_setupIndex (getAggregatedHandles true (Some a) c s σ)
   = filter (fun i => voteCount_at σ s i <> 0)
       (setup_indices (numSetups (session_at σ s))) /\
   forall e, e ∈ getAggregatedHandles true (Some a) c s σ ->
     agg_setupIndex e < numSetups (session_at σ s) /\
     agg_voteCount e = voteCount_at σ s (agg_setupIndex e) /\
     0 < agg_voteCount e /\
     agg_ratingHandle e :: agg_tagHandles e
       = aggregate_handles σ s (agg_setupIndex e) /\
     Forall (fun h => h <> HNone) (agg_ratingHandle e :: agg_tagHandles e) /\
     agg_contractAddress e = a /\
     (state (session_at σ s) <> Revealed ->
      agg_equipmentName e = "Setup " +:+ pretty (agg_setupIndex e + 1))).
Proof.
  intros Hreach. pose proof (reachable_Inv σ Hreach) as HI.
  split; [done|]. split; [done|]. split.
  { intros Hno. unfold getAggregatedHandles, getSession.
    by rewrite (sessionExists_Err σ s Hno). }
  intros Hex. rewrite (getAggregatedHandles_closed a c s σ Hex). split.
  - rewrite <- list_fmap_compose. apply list_fmap_id.
  - intros e He. apply list_elem_of_fmap in He as (i & -> & Hi).
    apply list_elem_of_filter in Hi as [Hnz Hi].
    apply elem_of_setup_indices in Hi. simpl.
    split; [done|]. split; [done|]. split; [lia|]. split; [done|]. split.
    + destruct (inv_shape σ HI s i) as (_ & Hone & Hmany).
      assert (Hcase : voteCount_at σ s i = 1 \/ 2 <= voteCount_at σ s i)
        by lia.
      change (total_at σ s i :: to_list5 (tagTotals_at σ s i))
        with (aggregate_handles σ s i).
      destruct Hcase as [H1|H2].
      * eapply Forall_impl; [exact (Hone H1)|]. intros h Hh ->. done.
      * eapply Forall_impl; [exact (Hmany H2)|]. intros h Hh ->. done.
    + split; [done|]. intros Hst. unfold getEquipmentNames.
      rewrite (proj2 (sessionExists_Ok _ _ tt) Hex). simpl.
      rewrite (require_false (bool_decide _))
        by by apply bool_decide_eq_false.
      simpl. unfold name_or_default. by rewrite lookup_nil.
Qed.

Lemma X14_witness :
  map agg_setupIndex
    (getAggregatedHandles true (Some 99) (mkCtx alice 1450) 0 s_requested)
  = filter (fun i => voteCount_at s_requested 0 i <> 0)
      (setup_indices (numSetups (session_at s_requested 0))).
Proof.
  assert (Hr : reachable s_requested) by (eexists; reflexivity).
  assert (He : exists_session s_requested 0) by (vm_compute; discriminate).
  destruct (X14_getAggregatedHandles s_requested 99 (mkCtx alice 1450) 0 Hr)
    as (_ & _ & _ & H).
  destruct (H He) as (H1 & _). exact H1.
Defined.

(** The scenario: only setup 0 has votes, so one entry is returned. *)
Example getAggregatedHandles_scenario :
  getAggregatedHandles true (Some 99) (mkCtx alice 1450) 0 s_requested
  = [mkAggregatedSetup 0 "Setup 1" 99 (HAdd bob_rating carol_rating)
       (to_list5 (zip5 HAdd bob_tags carol_tags)) 2].
Proof. vm_compute. reflexivity. Qed.

(** ** The organizer can decrypt what the results page asks for *)

Lemma elem_of_handlesToDecrypt (data : list AggregatedSetup) (h : handle)
    (ca : address) :
  (h, ca) ∈ handlesToDecrypt data <->
  exists e, e ∈ data /\ ca = agg_contractAddress e /\
            h ∈ agg_ratingHandle e :: agg_tagHandles e.
Proof.
  unfold handlesToDecrypt. rewrite list_elem_of_In, in_flat_map. split.
  - intros (e & He & Hin). exists e. apply list_elem_of_In in He, Hin.
    split; [done|]. apply elem_of_cons in Hin as [Hin|Hin].
    + simplify_eq. split; [done|]. apply list_elem_of_here.
    + apply list_elem_of_fmap in Hin as (h' & Heq & Hh'). simplify_eq.
      split; [done|]. by apply list_elem_of_further.
  - intros (e & He & -> & Hin). exists e.
    split; [by apply list_elem_of_In|]. apply list_elem_of_In.
    apply elem_of_cons in Hin as [-> | Hin]; [apply list_elem_of_here|].
    apply list_elem_of_further, list_elem_of_fmap. by exists h.
Qed.

(** X15.  Once [requestOrganizerDecryption] has succeeded in a reachable
    storage, then at any later time every handle the results page collects
    for decryption from [getAggregatedHandles] of that session is one the
    organizer who made the request is allowed on, and each is paired with
    the contract address the hook was given; and there are six handles per
    returned entry. *)
Theorem X15_organizer_allowed_on_results (σ σ1 : storage) (c : callctx)
    (s : N) (txs : list tx) (a : address) (c' : callctx) :
  reachable σ ->
  requestOrganizerDecryption c s σ = Ok σ1 ->
  (forall h ca,
     (h, ca) ∈ handlesToDecrypt
                 (getAggregatedHandles true (Some a) c' s (steps σ1 txs)) ->
     isAllowed h (User (msg_sender c)) (acl (steps σ1 txs)) = true /\
     ca = a) /\
  length (handlesToDecrypt
            (getAggregatedHandles true (Some a) c' s (steps σ1 txs)))
  = (length (getAggregatedHandles true (Some a) c' s (steps σ1 txs)) * 6)%nat.
Proof.
  intros Hreach H. pose proof (reachable_Inv σ Hreach) as HI.
  pose proof (proj1 (run_Ok_effect
    (mkTx c (RequestOrganizerDecryption s)) σ σ1) H) as Heff.
  pose proof (effect_Inv _ _ _ _ HI Heff) as HI1.
  apply requestOrganizerDecryption_Ok in H as (Hex & Horg & Hst & Hreq & ->).
  set (σ1 := request_post (msg_sender c) s σ) in *.
  assert (Hex1 : exists_session σ1 s) by exact Hex.
  assert (Hna : state (session_at σ1 s) <> Active).
  { change (state (session_at σ s) <> Active). congruence. }
  destruct (steps_not_active σ1 txs s HI1 Hex1 Hna) as (Hex2 & _ & _ & Hfix).
  destruct (steps_session_at σ1 txs s HI1 Hex1) as (st' & Hs2 & _).
  rewrite (getAggregatedHandles_closed a c' s _ Hex2). split.
  - intros h ca Hin.
    apply elem_of_handlesToDecrypt in Hin as (e & He & -> & Hh).
    apply list_elem_of_fmap in He as (i & -> & Hi).
    apply list_elem_of_filter in Hi as [Hnz Hi].
    apply elem_of_setup_indices in Hi. simpl in Hh |- *.
    split; [|done]. apply bool_decide_eq_true, steps_acl_mono.
    destruct (Hfix i 0) as (Hc & Ha & _).
    change (h ∈ aggregate_handles (steps σ1 txs) s i) in Hh.
    rewrite Ha in Hh. rewrite Hc in Hnz. rewrite Hs2 in Hi. simpl in Hi.
    apply acl_request_post. right. exists i.
    split; [exact Hi|]. split; [|split; [exact Hh|by left]].
    change (0 < voteCount_at σ s i).
    change (voteCount_at σ s i <> 0) in Hnz. lia.
  - unfold handlesToDecrypt. apply flat_map_constant_length.
    intros e He. apply list_elem_of_In, list_elem_of_fmap in He
      as (i & -> & _). done.
Qed.

Lemma X15_witness :
  isAllowed (HAdd bob_rating carol_rating)
    (User (msg_sender (tx_ctx tx_request)))
    (acl (steps s_requested [tx_reveal])) = true /\
  99 = 99.
Proof.
  assert (Hr : reachable s_closed) by (eexists; reflexivity).
  assert (Hok : requestOrganizerDecryption (tx_ctx tx_request) 0 s_closed
                = Ok s_requested) by (vm_compute; reflexivity).
  apply (proj1 (X15_organizer_allowed_on_results s_closed s_requested
                  (tx_ctx tx_request) 0 [tx_reveal] 99 (mkCtx alice 1700)
                  Hr Hok) (HAdd bob_rating carol_rating) 99).
  apply (bool_decide_unpack _). vm_compute. exact I.
Defined.

(** ** [fetchSessions] *)

Lemma fetch_loop_closed (c : callctx) (σ : storage) (ids : list N) :
  Forall (exists_session σ) ids ->
  fetch_loop c σ ids
  = Ok (map (fun i =>
          mkSessionInfo (organizer (session_at σ i)) (title (session_at σ i))
            (description (session_at σ i)) (deadline (session_at σ i))
            (state_code (state (session_at σ i)))
            (numSetups (session_at σ i)) (trackList (session_at σ i))) ids).
Proof.
  induction 1 as [|i ids Hex Hids IH]; [done|].
  cbn [fetch_loop]. unfold getSession.
  rewrite (proj2 (sessionExists_Ok _ _ tt) Hex). simpl. by rewrite IH.
Qed.

(** X16.  After any sequence of transactions sent by accounts to the freshly
    deployed contract, [fetchSessions] (with a contract and a provider
    available) replaces the session list by one entry per created session,
    in id order: the list has [getSessionCount] entries and its entry
    number [id] carries the organizer, title, description, deadline, state
    code, setup count and track list stored for session [id]; no call
    throws, so the previous list is never kept.  (The count is below [2^53],
    where [Number] is exact.)  Without a contract or a provider the list is
    emptied. *)
Theorem X16_fetchSessions (txs : list tx) (prev : list SessionInfo)
    (c : callctx) :
  real_senders txs -> _sessionCounter (steps init txs) < 2 ^ 53 ->
  fetchSessions false prev c (steps init txs) = [] /\
  length (fetchSessions true prev c (steps init txs))
    = creations init txs /\
  forall id,
    id < _sessionCounter (steps init txs) ->
    fetchSessions true prev c (steps init txs) !! N.to_nat id
    = Some (mkSessionInfo
              (organizer (session_at (steps init txs) id))
              (title (session_at (steps init txs) id))
              (description (session_at (steps init txs) id))
              (deadline (session_at (steps init txs) id))
              (state_code (state (session_at (steps init txs) id)))
              (numSetups (session_at (steps init txs) id))
              (trackList (session_at (steps init txs) id))).
Proof.
  intros Hreal _. split; [done|].
  pose proof (steps_creations init txs) as Hc.
  change (_sessionCounter init) with 0 in Hc. rewrite N.add_0_l in Hc.
  unfold fetchSessions, getSessionCount. simpl.
  rewrite fetch_loop_closed.
  2:{ apply Forall_forall. intros i Hi. apply elem_of_setup_indices in Hi.
      by apply real_senders_exist. }
  simpl. split.
  - rewrite length_map. unfold setup_indices.
    rewrite length_map, length_seq, Hc. apply Nat2N.id.
  - intros id Hid. rewrite list_lookup_fmap.
    assert (setup_indices (_sessionCounter (steps init txs)) !! N.to_nat id
            = Some id) as ->; [|done].
    unfold setup_indices. rewrite list_lookup_fmap.
    rewrite lookup_seq_lt by lia. simpl. by rewrite N2Nat.id.
Qed.

Lemma X16_witness :
  length (fetchSessions true [] (mkCtx carol 2000)
            (steps init [tx_create; tx_bob; tx_create; tx_close]))
  = creations init [tx_create; tx_bob; tx_create; tx_close].
Proof.
  apply (X16_fetchSessions [tx_create; tx_bob; tx_create; tx_close] []
           (mkCtx carol 2000)).
  - repeat constructor; vm_compute; discriminate.
  - vm_compute. reflexivity.
Defined.

(** ** The decryption-requested flag *)

(** X17.  In a reachable storage, when [isDecryptionRequested] answers true
    for an existing session, [getSessionState] returns 2 (Closed) or 3
    (Revealed), never 1 (Active); and the answer stays true after any
    further transactions. *)
Theorem X17_requested_flag (σ : storage) (s : N) (c : callctx)
    (txs : list tx) :
  reachable σ -> exists_session σ s ->
  isDecryptionRequested c s σ = Ok true ->
  (getSessionState c s σ = Ok 2 \/ getSessionState c s σ = Ok 3) /\
  isDecryptionRequested c s (steps σ txs) = Ok true.
Proof.
  intros Hreach Hex Hq. pose proof (reachable_Inv σ Hreach) as HI.
  unfold isDecryptionRequested, getSessionState in *.
  rewrite (proj2 (sessionExists_Ok _ _ tt) Hex) in Hq |- *. simpl in Hq |- *.
  injection Hq as Hq.
  destruct (inv_requested σ HI s Hq) as [_ Hna].
  destruct (exists_session_lookup σ s Hex) as (ss & Hss & Hat).
  destruct (inv_wf σ HI s ss Hss) as (Hnd & _). rewrite Hat in *.
  split.
  - destruct (state ss); simpl; try done; [by left|by right].
  - rewrite (proj2 (sessionExists_Ok _ _ tt)
               (steps_exists_session σ txs s HI Hex)). simpl.
    by rewrite (steps_requested σ txs s Hq).
Qed.

Lemma X17_witness :
  (getSessionState (mkCtx carol 2000) 0 s_requested = Ok 2 \/
   getSessionState (mkCtx carol 2000) 0 s_requested = Ok 3) /\
  isDecryptionRequested (mkCtx carol 2000) 0 (steps s_requested [tx_reveal])
    = Ok true.
Proof.
  apply (X17_requested_flag s_requested 0 (mkCtx carol 2000) [tx_reveal]).
  - eexists; reflexivity.
  - vm_compute; discriminate.
  - vm_compute; reflexivity.
Defined.

(** ** The vote page's voted markers *)

Lemma bind_Err {A B : Type} (m : result A) (k : A -> result B) (e : error) :
  m ≫= k = Err e -> m = Err e \/ exists a, m = Ok a /\ k a = Err e.
Proof.
  destruct m as [a|e']; intros H; [right; by exists a|left].
  change (@Err B e' = Err e) in H. by injection H as ->.
Qed.

Lemma FHE_fromExternal_Err (u : address) (h : handle) (p : inputProof)
    (e : error) :
  FHE_fromExternal u h p = Err e -> e = InputRejected.
Proof. unfold FHE_fromExternal. repeat case_match; congruence. Qed.

Lemma mapM5_fromExternal_Err (u : address) (ts : Array5 handle)
    (p : inputProof) (e : error) :
  mapM5 (fun t => FHE_fromExternal u t p) ts = Err e -> e = InputRejected.
Proof.
  unfold mapM5. intros H.
  repeat (apply bind_Err in H as [H|(? & _ & H)];
          [by apply FHE_fromExternal_Err in H|]).
  discriminate.
Qed.

Lemma checked_inc_Err (max x : N) (e : error) :
  checked_inc max x = Err e -> e = Overflow.
Proof. unfold checked_inc. case_match; congruence. Qed.

(** X18.  For a connected user and an existing Active session before its
    deadline, the vote page marks exactly the setups the contract would
    refuse as duplicates: a setup index is in [checkVotedStatus] if and only
    if it is below the setup count and a [submitVote] by that user for it
    fails with "Already voted for this setup", whatever ciphertexts and
    proof are sent.  Without a user address nothing is marked. *)
Theorem X18_voted_markers (σ : storage) (c : callctx) (s i : N)
    (r : handle) (ts : Array5 handle) (p : inputProof) (c' : callctx) :
  exists_session σ s -> state (session_at σ s) = Active ->
  block_timestamp c <= deadline (session_at σ s) ->
  checkVotedStatus true None c' s (numSetups (session_at σ s)) σ = [] /\
  (i ∈ checkVotedStatus true (Some (msg_sender c)) c' s
         (numSetups (session_at σ s)) σ <->
   i < numSetups (session_at σ s) /\
   submitVote c s i r ts p σ = Err DuplicateVote).
Proof.
  intros Hex Hact Hdl. split.
  { unfold checkVotedStatus. simpl.
    induction (setup_indices _) as [|x l IH]; [done|].
    rewrite filter_cons. by rewrite decide_False. }
  unfold checkVotedStatus. rewrite list_elem_of_filter, elem_of_setup_indices.
  unfold hook_hasVoted, hasVoted. simpl.
  assert (Hsub : i < numSetups (session_at σ s) ->
            submitVote c s i r ts p σ =
            (require (negb (submitted (vote_at σ s i (msg_sender c))))
               "Already voted for this setup";;
             encryptedRating ← FHE_fromExternal (msg_sender c) r p;
             encryptedTags ←
               mapM5 (fun t => FHE_fromExternal (msg_sender c) t p) ts;
             let σ2 :=
               aggregate_vote s i encryptedRating encryptedTags
                 (set_vote s i (msg_sender c)
                    (mkVote encryptedRating encryptedTags true) σ) in
             count ← checked_inc MAX_UINT16 (voteCount_at σ2 s i);
             Ok (grant_vote (msg_sender c) s i encryptedRating encryptedTags
                   (set_voteCount s i count σ2)))).
  { intros Hi. unfold submitVote, onlyActiveSession.
    rewrite (proj2 (sessionExists_Ok _ _ tt) Hex). simpl.
    rewrite (require_true (bool_decide _)) by by apply bool_decide_eq_true.
    simpl. rewrite (require_true (_ <=? _)) by by apply N.leb_le. simpl.
    rewrite (require_true (_ <? _)) by by apply N.ltb_lt. done. }
  split.
  - intros [Hv Hi]. split; [done|]. rewrite (Hsub Hi), Hv. done.
  - intros [Hi Hdup]. split; [|done]. rewrite (Hsub Hi) in Hdup.
    destruct (submitted (vote_at σ s i (msg_sender c))); [done|].
    exfalso. simpl in Hdup.
    apply bind_Err in Hdup as [Hdup|(r' & _ & Hdup)];
      [by apply FHE_fromExternal_Err in Hdup|].
    apply bind_Err in Hdup as [Hdup|(ts' & _ & Hdup)];
      [by apply mapM5_fromExternal_Err in Hdup|].
    apply bind_Err in Hdup as [Hdup|(n & _ & Hdup)];
      [by apply checked_inc_Err in Hdup|].
    discriminate.
Qed.

Lemma X18_witness :
  0 ∈ checkVotedStatus true (Some (msg_sender (mkCtx bob 1250)))
        (mkCtx bob 1250) 0 (numSetups (session_at s_voted 0)) s_voted <->
  0 < numSetups (session_at s_voted 0) /\
  submitVote (mkCtx bob 1250) 0 0 carol_rating carol_tags carol_proof s_voted
    = Err DuplicateVote.
Proof.
  apply (X18_voted_markers s_voted (mkCtx bob 1250) 0 0 carol_rating
           carol_tags carol_proof (mkCtx bob 1250)).
  - vm_compute; discriminate.
  - vm_compute; reflexivity.
  - vm_compute; discriminate.
Defined.
